(** * libuv timers (src/timer.c): a shallow embedding and its properties

    The C file keeps every started timer in a min-heap owned by the loop,
    ordered by [(timeout, start_id)].  Handles are C structs reached through
    pointers; here a pointer is an address ([Z]) into a finite map of timer
    records, the loop is a record next to that map, and every function of
    timer.c is a computation in a state monad whose failure value stands for
    C undefined behaviour (a dangling handle, a call through NULL, removing
    a node the heap does not hold). *)

From Stdlib Require Import ZArith Lia Bool.
From stdpp Require Import base option list sorting gmap.

Local Open Scope Z_scope.

(** ** Machine integers *)

(** [(uint64_t) -1], and [INT_MAX] of limits.h for a 32-bit [int]. *)
Definition UINT64_MAX : Z := 2 ^ 64 - 1.
Definition INT_MAX : Z := 2 ^ 31 - 1.

(** [uint64_t] arithmetic is modulo 2^64. *)
Definition wrap64 (z : Z) : Z := z mod 2 ^ 64.

Definition u64 (z : Z) : Prop := 0 <= z <= UINT64_MAX.

(** Modelled from the spec: uv-errno.h is absent; [InvalidArgument] is the
    negated errno EINVAL. *)
Definition UV_EINVAL : Z := -22.

(** ** Handles and the loop *)

(** A [uv_timer_t*] is an address; a [uv_timer_cb] is a function pointer,
    also an address, with [NULL] the null pointer. *)
Abbreviation handle := Z.
Abbreviation uv_timer_cb := Z.
Definition NULL : uv_timer_cb := 0.

(** Modelled from the spec: the declaration of [uv_timer_t] (uv.h) is not
    part of the sources.  The record has the fields timer.c reads and writes,
    under the names timer.c uses: the spec's callback, deadline, repeat and
    sequence_id.  The handle flags that [uv__is_closing] and [uv__is_active]
    of uv-common.h test are the two booleans [closing] and [active]. *)
Record uv_timer_t : Type := mk_timer {
  timer_cb : uv_timer_cb;
  timeout : Z;
  repeat : Z;
  start_id : Z;
  closing : bool;
  active : bool
}.

(** Modelled from the spec: the declaration of [uv_loop_t] (uv.h) is not
    part of the sources.  The record has the fields timer.c uses: the spec's
    current_time, sequence_counter and heap; [timer_heap] holds the handles
    whose [heap_node] is linked into the loop's heap. *)
Record uv_loop_t : Type := mk_loop {
  time : Z;
  timer_counter : Z;
  timer_heap : list handle
}.

(** The program state: the loop and the memory holding the timer structs. *)
Record world : Type := mk_world {
  loop : uv_loop_t;
  mem : gmap handle uv_timer_t
}.

(** ** The comparator (timer.c, lines 31-48) *)

Definition timer_less_than (a b : uv_timer_t) : bool :=
  if timeout a <? timeout b then true
  else if timeout b <? timeout a then false
  else start_id a <? start_id b.

(** ** The heap primitive *)

Module heap.

(** heap-inl.h is not part of the sources.  The spec gives the container by
    its contract only (insert, removal of an arbitrary element, peek of the
    least element under the caller's comparator), so a heap is modelled by
    the list of the elements it holds. *)
Section ops.
Context {A : Type} `{EqDecision A}.

(** Modelled from the spec: [heap_insert] of heap-inl.h; the element joins
    the heap. *)
Definition heap_insert (hp : list A) (x : A) : list A := x :: hp.

Fixpoint remove_first (x : A) (hp : list A) : list A :=
  match hp with
  | [] => []
  | y :: r => if decide (x = y) then r else y :: remove_first x r
  end.

(** Modelled from the spec: [heap_remove] of heap-inl.h; removes one
    element, and is undefined ([None]) when the element is not present. *)
Definition heap_remove (hp : list A) (x : A) : option (list A) :=
  if decide (x ∈ hp) then Some (remove_first x hp) else None.

(** Modelled from the spec: [heap_min] of heap-inl.h; the element with the
    smallest order (the first one that no other element precedes), nothing
    when the heap is empty.  The C heap keeps its elements ordered by the
    comparator given at insertion; the list does not, so the comparator is
    an argument here. *)
Fixpoint heap_min (less : A -> A -> bool) (hp : list A) : option A :=
  match hp with
  | [] => None
  | x :: r =>
      match heap_min less r with
      | None => Some x
      | Some m => if less m x then Some m else Some x
      end
  end.

End ops.

End heap.
Import heap.

(** The comparator as the heap sees it: on nodes, that is on handles, read
    through memory. *)
Definition node_less (m : gmap handle uv_timer_t) (a b : handle) : bool :=
  match m !! a, m !! b with
  | Some ta, Some tb => timer_less_than ta tb
  | _, _ => false
  end.

(** ** The monad of timer.c computations *)

Inductive result (A : Type) : Type :=
| Ok (a : A)
| Undefined
| OutOfFuel.
Arguments Ok {A} a.
Arguments Undefined {A}.
Arguments OutOfFuel {A}.

Definition M (A : Type) : Type := world -> result (A * world).

Definition ret {A} (a : A) : M A := fun w => Ok (a, w).

Definition bind {A B} (m : M A) (k : A -> M B) : M B :=
  fun w =>
    match m w with
    | Ok (a, w') => k a w'
    | Undefined => Undefined
    | OutOfFuel => OutOfFuel
    end.

Notation "'let*' x ':=' m 'in' k" := (bind m (fun x => k))
  (at level 10, x name, m at level 100, k at level 200).

Definition undefined {A} : M A := fun _ => Undefined.

(** [*h]: reading through a handle that points to no timer is undefined. *)
Definition load (h : handle) : M uv_timer_t :=
  fun w => match mem w !! h with Some t => Ok (t, w) | None => Undefined end.

(** [*h = t] *)
Definition store (h : handle) (t : uv_timer_t) : M unit :=
  fun w =>
    match mem w !! h with
    | Some _ => Ok (tt, mk_world (loop w) (<[h := t]> (mem w)))
    | None => Undefined
    end.

Definition get_loop : M uv_loop_t := fun w => Ok (loop w, w).
Definition put_loop (l : uv_loop_t) : M unit := fun w => Ok (tt, mk_world l (mem w)).
Definition get_mem : M (gmap handle uv_timer_t) := fun w => Ok (mem w, w).

(** ** Handle bookkeeping *)

(** Modelled from the spec: [uv__handle_init] of uv-common.h, which is not
    part of the sources; it registers a new, inactive handle. *)
Definition uv__handle_init (t : uv_timer_t) : uv_timer_t :=
  mk_timer (timer_cb t) (timeout t) (repeat t) (start_id t) false false.

(** Modelled from the spec: [uv__handle_start] of uv-common.h; marks the
    handle active. *)
Definition uv__handle_start (h : handle) : M unit :=
  let* t := load h in
  store h (mk_timer (timer_cb t) (timeout t) (repeat t) (start_id t) (closing t) true).

(** Modelled from the spec: [uv__handle_stop] of uv-common.h; clears the
    active flag. *)
Definition uv__handle_stop (h : handle) : M unit :=
  let* t := load h in
  store h (mk_timer (timer_cb t) (timeout t) (repeat t) (start_id t) (closing t) false).

(** ** The timer operations (timer.c, lines 52-130) *)

Definition uv_timer_init (h : handle) : M Z :=
  let* t := load h in
  let t := uv__handle_init t in
  let* _ := store h (mk_timer NULL (timeout t) 0 (start_id t) (closing t) (active t)) in
  ret 0.

Definition uv_timer_stop (h : handle) : M Z :=
  let* t := load h in
  if negb (active t) then ret 0
  else
    let* l := get_loop in
    match heap_remove (timer_heap l) h with
    | None => undefined
    | Some hp =>
        let* _ := put_loop (mk_loop (time l) (timer_counter l) hp) in
        let* _ := uv__handle_stop h in
        ret 0
    end.

Definition uv_timer_start (h : handle) (cb : uv_timer_cb) (timeout_ repeat_ : Z) : M Z :=
  let* t := load h in
  if closing t || (cb =? NULL) then ret UV_EINVAL
  else
    let* _ := (if active t then uv_timer_stop h else ret 0) in
    let* l := get_loop in
    let clamped_timeout := wrap64 (time l + timeout_) in
    let clamped_timeout :=
      if clamped_timeout <? timeout_ then UINT64_MAX else clamped_timeout in
    let* t := load h in
    let* _ := store h (mk_timer cb clamped_timeout repeat_ (timer_counter l)
                                (closing t) (active t)) in
    let* _ := put_loop (mk_loop (time l) (wrap64 (timer_counter l + 1))
                                (heap_insert (timer_heap l) h)) in
    let* _ := uv__handle_start h in
    ret 0.

Definition uv_timer_again (h : handle) : M Z :=
  let* t := load h in
  if (timer_cb t =? NULL) || (repeat t =? 0) then ret UV_EINVAL
  else
    let* _ := uv_timer_start h (timer_cb t) (repeat t) (repeat t) in
    ret 0.

Definition uv_timer_set_repeat (h : handle) (repeat_ : Z) : M unit :=
  let* t := load h in
  store h (mk_timer (timer_cb t) (timeout t) repeat_ (start_id t) (closing t) (active t)).

Definition uv_timer_get_repeat (h : handle) : M Z :=
  let* t := load h in
  ret (repeat t).

(** ** The loop's side (timer.c, lines 136-181) *)

Definition uv__next_timeout : M Z :=
  let* l := get_loop in
  let* m := get_mem in
  match heap_min (node_less m) (timer_heap l) with
  | None => ret (-1)
  | Some h =>
      let* t := load h in
      if timeout t <=? time l then ret 0
      else
        let diff := wrap64 (timeout t - time l) in
        let diff := if diff >? INT_MAX then INT_MAX else diff in
        ret diff
  end.

Definition uv__timer_close (h : handle) : M unit :=
  let* _ := uv_timer_stop h in
  ret tt.

(** One firing: the handle, the record read when it was taken from the heap
    and the callback that was called. *)
Record firing : Type := mk_firing {
  fired_handle : handle;
  fired_timer : uv_timer_t;
  fired_cb : uv_timer_cb
}.

Section run.

(** The callbacks are user code: [cb_code cb h] is what a call [cb(h)]
    does to the program state. *)
Variable cb_code : uv_timer_cb -> handle -> M unit.

(** A call through a function pointer; through NULL it is undefined. *)
Definition call (cb : uv_timer_cb) (h : handle) : M unit :=
  if cb =? NULL then undefined else cb_code cb h.

(** [for (;;)] needs fuel: one unit per evaluation of the loop body.  The
    result lists the firings in the order they happened. *)
Fixpoint uv__run_timers (fuel : nat) : M (list firing) :=
  match fuel with
  | O => fun _ => OutOfFuel
  | S fuel' =>
      let* l := get_loop in
      let* m := get_mem in
      match heap_min (node_less m) (timer_heap l) with
      | None => ret []
      | Some h =>
          let* t := load h in
          if timeout t >? time l then ret []
          else
            let* _ := uv_timer_stop h in
            let* _ := uv_timer_again h in
            let* t' := load h in
            let* _ := call (timer_cb t') h in
            let* rest := uv__run_timers fuel' in
            ret (mk_firing h t (timer_cb t') :: rest)
      end
  end.

End run.


(** * Vocabulary of the properties *)

(** ** Closed forms of the operations' effects *)

Definition set_active (t : uv_timer_t) (b : bool) : uv_timer_t :=
  mk_timer (timer_cb t) (timeout t) (repeat t) (start_id t) (closing t) b.

(** The deadline [uv_timer_start] stores (timer.c, lines 75-77). *)
Definition clamped_timeout (now timeout_ : Z) : Z :=
  if wrap64 (now + timeout_) <? timeout_ then UINT64_MAX else wrap64 (now + timeout_).

(** The state [uv_timer_stop] leaves when it stops an active handle. *)
Definition stopped (w : world) (h : handle) (t : uv_timer_t) : world :=
  mk_world
    (mk_loop (time (loop w)) (timer_counter (loop w))
             (remove_first h (timer_heap (loop w))))
    (<[h := set_active t false]> (mem w)).

(** The state [uv_timer_start] leaves when it succeeds. *)
Definition started (w : world) (h : handle) (t : uv_timer_t)
    (cb : uv_timer_cb) (timeout_ repeat_ : Z) : world :=
  mk_world
    (mk_loop (time (loop w)) (wrap64 (timer_counter (loop w) + 1))
             (h :: (if active t then remove_first h (timer_heap (loop w))
                    else timer_heap (loop w))))
    (<[h := mk_timer cb (clamped_timeout (time (loop w)) timeout_) repeat_
                     (timer_counter (loop w)) (closing t) true]> (mem w)).

(** The state [uv__run_timers] hands to the callback of the due timer [h]:
    [uv_timer_stop] has run, then [uv_timer_again], which starts the timer
    anew when its repeat is not zero. *)
Definition rearmed (w : world) (h : handle) (t : uv_timer_t) : world :=
  if repeat t =? 0 then stopped w h t
  else started (stopped w h t) h (set_active t false) (timer_cb t) (repeat t) (repeat t).

(** ** Well-formed states

    The states the program reaches: every integer field is in the range of
    its C type, the heap holds no handle twice, holds only allocated
    handles, and holds exactly the active ones (I1, I4); an active handle is
    not closing and has a callback. *)

Definition timer_wf (hp : list handle) (h : handle) (t : uv_timer_t) : Prop :=
  u64 (timeout t) /\ u64 (repeat t) /\ u64 (start_id t) /\
  (active t = true <-> h ∈ hp) /\
  (active t = true -> closing t = false /\ timer_cb t <> NULL).

Definition wf (w : world) : Prop :=
  u64 (time (loop w)) /\ u64 (timer_counter (loop w)) /\
  NoDup (timer_heap (loop w)) /\
  Forall (fun h => is_Some (mem w !! h)) (timer_heap (loop w)) /\
  map_Forall (timer_wf (timer_heap (loop w))) (mem w).

#[global] Instance u64_dec (z : Z) : Decision (u64 z).
Proof. unfold u64. apply _. Defined.

#[global] Instance timer_wf_dec hp h t : Decision (timer_wf hp h t).
Proof. unfold timer_wf. apply _. Defined.

#[global] Instance wf_dec (w : world) : Decision (wf w).
Proof. unfold wf. apply _. Defined.

(** ** Due timers and firing order *)

(** The timer behind [h] has reached its deadline. *)
Definition due (w : world) (h : handle) : Prop :=
  match mem w !! h with
  | Some t => timeout t <= time (loop w)
  | None => False
  end.

#[global] Instance due_dec (w : world) (h : handle) : Decision (due w h).
Proof. unfold due. destruct (mem w !! h); apply _. Defined.

Definition due_handles (w : world) : list handle :=
  filter (due w) (timer_heap (loop w)).

(** Heap order on records, non-strict: deadline ascending, then sequence
    number ascending. *)
Definition key_le (a b : uv_timer_t) : Prop :=
  timeout a < timeout b \/ (timeout a = timeout b /\ start_id a <= start_id b).

Definition same_key (a b : uv_timer_t) : Prop :=
  timeout a = timeout b /\ start_id a = start_id b.

Definition fires_no_later (e1 e2 : firing) : Prop :=
  key_le (fired_timer e1) (fired_timer e2).

(** A firing of a run that began in [w]: the timer was due in [w], it is
    recorded with the deadline and sequence number it had in [w], and the
    callback called is the one it stores. *)
Definition fired_from (w : world) (e : firing) : Prop :=
  fired_handle e ∈ due_handles w /\
  fired_cb e = timer_cb (fired_timer e) /\ fired_cb e <> NULL /\
  exists t, mem w !! fired_handle e = Some t /\ same_key (fired_timer e) t.

(** Where a timer fired while the clock read [now] is in the state [w']: a
    one-shot timer is inactive and out of the heap, a repeating timer is
    active, in the heap, and due at [now + repeat], saturated. *)
Definition settled (w' : world) (now : Z) (e : firing) : Prop :=
  exists t', mem w' !! fired_handle e = Some t' /\
    (repeat (fired_timer e) = 0 ->
     active t' = false /\ fired_handle e ∉ timer_heap (loop w')) /\
    (repeat (fired_timer e) <> 0 ->
     active t' = true /\ fired_handle e ∈ timer_heap (loop w') /\
     repeat t' = repeat (fired_timer e) /\
     timeout t' = Z.min (now + repeat (fired_timer e)) UINT64_MAX).

(** The exit test of the loop of [uv__run_timers]: the heap is empty or its
    minimum is not yet due. *)
Definition nothing_due (w : world) : Prop :=
  match heap_min (node_less (mem w)) (timer_heap (loop w)) with
  | None => timer_heap (loop w) = []
  | Some h => exists t, mem w !! h = Some t /\ time (loop w) < timeout t
  end.

(** ** What callbacks may do *)

(** No callback starts a timer: a callback returns, keeps the state
    well-formed, leaves the loop time alone, and every timer in the heap
    after it was there before it, with the same deadline and sequence
    number. *)
Definition starts_no_timers (cb_code : uv_timer_cb -> handle -> M unit) : Prop :=
  forall cb h w, cb <> NULL -> wf w ->
    exists w', cb_code cb h w = Ok (tt, w') /\ wf w' /\
      time (loop w') = time (loop w) /\
      forall x, x ∈ timer_heap (loop w') ->
        x ∈ timer_heap (loop w) /\
        exists t t', mem w !! x = Some t /\ mem w' !! x = Some t' /\ same_key t' t.

(** The callbacks leave the timers and the loop alone. *)
Definition quiet (cb_code : uv_timer_cb -> handle -> M unit) : Prop :=
  forall cb h w, cb_code cb h w = Ok (tt, w).

(** ** Sample states *)

Definition idle_timer : uv_timer_t := mk_timer NULL 0 0 0 false false.

(** Three allocated, never started handles at addresses 1, 2 and 3. *)
Definition idle_world (now : Z) : world :=
  mk_world (mk_loop now 0 []) (<[3 := idle_timer]> (<[2 := idle_timer]> {[1 := idle_timer]})).

(** A handle that was started with callback 7 and repeat 3, then closed. *)
Definition closing_world : world :=
  mk_world (mk_loop 5 1 []) {[1 := mk_timer 7 8 3 0 true false]}.

(** Callbacks that return at once. *)
Definition quiet_code : uv_timer_cb -> handle -> M unit := fun _ _ => ret tt.

(** A state with handle 1 started: callback 7, deadline 10, one-shot. *)
Definition one_timer_world (now : Z) : world :=
  mk_world (mk_loop now 1 [1]) {[1 := mk_timer 7 10 0 0 false true]}.

(** Handles 1, 2 and 3 started in this order while the clock read 0: A (1)
    for tick 10, B (2) for tick 5 with repeat 3, C (3) for tick 10; the clock
    now reads [now]. *)
Definition three_timers_world (now : Z) : world :=
  mk_world (mk_loop now 3 [3; 2; 1])
           (<[3 := mk_timer 9 10 0 2 false true]>
              (<[2 := mk_timer 8 5 3 1 false true]>
                 {[1 := mk_timer 7 10 0 0 false true]})).

(** A callback that stops the timer it is called for. *)
Definition stop_own_timer : uv_timer_cb -> handle -> M unit :=
  fun _ h => let* _ := uv_timer_stop h in ret tt.

(** Handles 1 and 2 started as one-shot timers for ticks 10 and 5; the clock
    now reads [now]. *)
Definition two_one_shots_world (now : Z) : world :=
  mk_world (mk_loop now 2 [2; 1])
           (<[2 := mk_timer 8 5 0 1 false true]> {[1 := mk_timer 7 10 0 0 false true]}).

(** ** What callbacks may do, seen from the loop

    [uv__run_timers] calls a callback in a well-formed state, for an
    allocated handle, through the callback that handle stores, which is not
    NULL.  The two contracts below ask something of such calls only. *)

(** No callback starts a timer: a call returns, keeps the state well-formed,
    leaves the loop time alone, and every timer in the heap after it was
    there before it, with the same deadline and sequence number.  The
    callback may stop timers and change repeat intervals. *)
Definition adds_no_timers (cb_code : uv_timer_cb -> handle -> M unit) : Prop :=
  forall h w t, wf w -> mem w !! h = Some t -> timer_cb t <> NULL ->
    exists w', cb_code (timer_cb t) h w = Ok (tt, w') /\ wf w' /\
      time (loop w') = time (loop w) /\
      forall x, x ∈ timer_heap (loop w') ->
        x ∈ timer_heap (loop w) /\
        exists tx tx', mem w !! x = Some tx /\ mem w' !! x = Some tx' /\ same_key tx' tx.

(** The heap holds a repeating timer. *)
Definition has_repeating_timer (w : world) : Prop :=
  exists x tx, x ∈ timer_heap (loop w) /\ mem w !! x = Some tx /\ repeat tx <> 0.

(** The callbacks leave a repeating timer in the heap: a call made while the
    heap holds one, if it returns, keeps the state well-formed and the loop
    time as it is, and the heap still holds a repeating timer. *)
Definition keeps_repeating_timer (cb_code : uv_timer_cb -> handle -> M unit) : Prop :=
  forall h w t w', wf w -> mem w !! h = Some t -> timer_cb t <> NULL ->
    has_repeating_timer w ->
    cb_code (timer_cb t) h w = Ok (tt, w') ->
    wf w' /\ time (loop w') = time (loop w) /\ has_repeating_timer w'.

(** * Properties *)

(** ** The comparator *)

Lemma timer_less_than_iff (a b : uv_timer_t) :
  timer_less_than a b = true <->
  timeout a < timeout b \/ (timeout a = timeout b /\ start_id a < start_id b).
Proof.
  unfold timer_less_than.
  destruct (Z.ltb_spec (timeout a) (timeout b)) as [Hab|Hab].
  - split; [intros _; left; exact Hab | reflexivity].
  - destruct (Z.ltb_spec (timeout b) (timeout a)) as [Hba|Hba].
    + split; [discriminate | intros [H|[H _]]; lia].
    + rewrite Z.ltb_lt. split; [intros H; right; lia | intros [H|[_ H]]; lia].
Qed.

(** ** Closed forms of the operations' effects *)

(** Running a computation whose first step is a read of an allocated
    handle. *)
Lemma bind_load {A} (h : handle) (k : uv_timer_t -> M A) (w : world) (t : uv_timer_t) :
  mem w !! h = Some t -> bind (load h) k w = k t w.
Proof. intros H. unfold bind, load. rewrite H. reflexivity. Qed.

Lemma store_ok (h : handle) (t t0 : uv_timer_t) (w : world) :
  mem w !! h = Some t0 ->
  store h t w = Ok (tt, mk_world (loop w) (<[h := t]> (mem w))).
Proof. intros H. unfold store. rewrite H. reflexivity. Qed.

Lemma uv_timer_stop_inactive (w : world) (h : handle) (t : uv_timer_t) :
  mem w !! h = Some t -> active t = false -> uv_timer_stop h w = Ok (0, w).
Proof.
  intros Hm Ha. unfold uv_timer_stop. rewrite (bind_load _ _ _ _ Hm), Ha.
  reflexivity.
Qed.

Lemma uv_timer_stop_active (w : world) (h : handle) (t : uv_timer_t) :
  mem w !! h = Some t -> active t = true -> h ∈ timer_heap (loop w) ->
  uv_timer_stop h w = Ok (0, stopped w h t).
Proof.
  intros Hm Ha Hin. unfold uv_timer_stop. rewrite (bind_load _ _ _ _ Hm), Ha.
  cbn [negb]. unfold bind at 1, get_loop, heap_remove.
  destruct (decide (h ∈ timer_heap (loop w))) as [_|Hn]; [|contradiction].
  unfold bind at 1, put_loop. unfold bind at 1, uv__handle_stop.
  rewrite (bind_load _ _ _ t) by exact Hm.
  rewrite (store_ok _ _ t) by exact Hm. reflexivity.
Qed.

Lemma uv_timer_stop_missing (w : world) (h : handle) (t : uv_timer_t) :
  mem w !! h = Some t -> active t = true -> h ∉ timer_heap (loop w) ->
  uv_timer_stop h w = Undefined.
Proof.
  intros Hm Ha Hin. unfold uv_timer_stop. rewrite (bind_load _ _ _ _ Hm), Ha.
  cbn [negb]. unfold bind at 1, get_loop, heap_remove.
  destruct (decide (h ∈ timer_heap (loop w))) as [Hn|_]; [contradiction|].
  reflexivity.
Qed.

Lemma uv_timer_start_einval (w : world) (h : handle) (t : uv_timer_t)
    (cb : uv_timer_cb) (timeout_ repeat_ : Z) :
  mem w !! h = Some t -> closing t = true \/ cb = NULL ->
  uv_timer_start h cb timeout_ repeat_ w = Ok (UV_EINVAL, w).
Proof.
  intros Hm Hc. unfold uv_timer_start. rewrite (bind_load _ _ _ _ Hm).
  assert (closing t || (cb =? NULL) = true) as ->; [|reflexivity].
  destruct Hc as [->| ->]; [reflexivity|]. apply orb_true_r.
Qed.

Lemma uv_timer_start_ok (w : world) (h : handle) (t : uv_timer_t)
    (cb : uv_timer_cb) (timeout_ repeat_ : Z) :
  mem w !! h = Some t -> closing t = false -> cb <> NULL ->
  (active t = true -> h ∈ timer_heap (loop w)) ->
  uv_timer_start h cb timeout_ repeat_ w = Ok (0, started w h t cb timeout_ repeat_).
Proof.
  intros Hm Hc Hcb Hin. unfold uv_timer_start. rewrite (bind_load _ _ _ _ Hm), Hc.
  assert ((cb =? NULL) = false) as -> by (apply Z.eqb_neq; exact Hcb).
  cbn [orb]. unfold started, clamped_timeout.
  destruct (active t) eqn:Ha.
  - unfold bind at 1. rewrite (uv_timer_stop_active _ _ _ Hm Ha (Hin eq_refl)).
    unfold bind at 1, get_loop. cbn [loop stopped time timer_counter timer_heap].
    rewrite (bind_load _ _ _ (set_active t false)) by (cbn; apply lookup_insert_eq).
    unfold bind at 1. rewrite (store_ok _ _ (set_active t false)) by (cbn; apply lookup_insert_eq).
    unfold bind at 1, put_loop. unfold bind at 1, uv__handle_start.
    cbn [mem loop].
    erewrite bind_load by (cbn; apply lookup_insert_eq).
    erewrite store_ok by (cbn; apply lookup_insert_eq).
    cbn. rewrite !insert_insert_eq. reflexivity.
  - unfold bind at 1, ret at 1. unfold bind at 1, get_loop.
    rewrite (bind_load _ _ _ t) by exact Hm.
    unfold bind at 1. rewrite (store_ok _ _ t) by exact Hm.
    unfold bind at 1, put_loop. unfold bind at 1, uv__handle_start.
    erewrite bind_load by (cbn; apply lookup_insert_eq).
    erewrite store_ok by (cbn; apply lookup_insert_eq).
    cbn. rewrite !insert_insert_eq. reflexivity.
Qed.

Lemma uv_timer_start_undefined (w : world) (h : handle) (t : uv_timer_t)
    (cb : uv_timer_cb) (timeout_ repeat_ : Z) :
  mem w !! h = Some t -> closing t = false -> cb <> NULL ->
  active t = true -> h ∉ timer_heap (loop w) ->
  uv_timer_start h cb timeout_ repeat_ w = Undefined.
Proof.
  intros Hm Hc Hcb Ha Hout. unfold uv_timer_start.
  rewrite (bind_load _ _ _ _ Hm), Hc, Ha.
  apply Z.eqb_neq in Hcb. rewrite Hcb. cbn [orb]. unfold bind.
  rewrite (uv_timer_stop_missing _ _ _ Hm Ha Hout). reflexivity.
Qed.

Lemma uv_timer_again_einval (w : world) (h : handle) (t : uv_timer_t) :
  mem w !! h = Some t -> timer_cb t = NULL \/ repeat t = 0 ->
  uv_timer_again h w = Ok (UV_EINVAL, w).
Proof.
  intros Hm Hc. unfold uv_timer_again. rewrite (bind_load _ _ _ _ Hm).
  assert ((timer_cb t =? NULL) || (repeat t =? 0) = true) as ->; [|reflexivity].
  destruct Hc as [-> | ->]; [reflexivity | apply orb_true_r].
Qed.

Lemma uv_timer_again_calls_start (w : world) (h : handle) (t : uv_timer_t) :
  mem w !! h = Some t -> timer_cb t <> NULL -> repeat t <> 0 ->
  uv_timer_again h w =
  bind (uv_timer_start h (timer_cb t) (repeat t) (repeat t)) (fun _ => ret 0) w.
Proof.
  intros Hm Hcb Hr. unfold uv_timer_again. rewrite (bind_load _ _ _ _ Hm).
  apply Z.eqb_neq in Hcb, Hr. rewrite Hcb, Hr. reflexivity.
Qed.

Lemma uv_timer_get_repeat_ok (w : world) (h : handle) (t : uv_timer_t) :
  mem w !! h = Some t -> uv_timer_get_repeat h w = Ok (repeat t, w).
Proof. intros Hm. unfold uv_timer_get_repeat. rewrite (bind_load _ _ _ _ Hm). reflexivity. Qed.

Lemma uv_timer_init_ok (w : world) (h : handle) (t : uv_timer_t) :
  mem w !! h = Some t ->
  uv_timer_init h w =
  Ok (0, mk_world (loop w)
           (<[h := mk_timer NULL (timeout t) 0 (start_id t) false false]> (mem w))).
Proof.
  intros Hm. unfold uv_timer_init. rewrite (bind_load _ _ _ _ Hm).
  unfold bind. rewrite (store_ok _ _ t) by exact Hm. reflexivity.
Qed.

(** ** Unsigned arithmetic *)

Lemma wrap64_small (z : Z) : u64 z -> wrap64 z = z.
Proof. unfold u64, UINT64_MAX, wrap64. intros H. apply Z.mod_small. lia. Qed.

Lemma wrap64_range (z : Z) : u64 (wrap64 z).
Proof.
  unfold u64, UINT64_MAX, wrap64.
  pose proof (Z.mod_pos_bound z (2 ^ 64) ltac:(lia)). lia.
Qed.

Lemma wrap64_overflow (z : Z) :
  UINT64_MAX < z <= 2 * UINT64_MAX -> wrap64 z = z - 2 ^ 64.
Proof.
  unfold UINT64_MAX, wrap64. intros H.
  symmetry. apply (Z.mod_unique_pos z (2 ^ 64) 1); lia.
Qed.

(** The wrapped sum with the overflow test of timer.c is the saturating
    sum. *)
Lemma clamped_timeout_saturates (now timeout_ : Z) :
  u64 now -> u64 timeout_ ->
  clamped_timeout now timeout_ = Z.min (now + timeout_) UINT64_MAX.
Proof.
  intros Hn Ht. unfold clamped_timeout.
  destruct (Z_le_gt_dec (now + timeout_) UINT64_MAX) as [Hle|Hgt].
  - rewrite wrap64_small by (unfold u64 in *; lia).
    destruct (Z.ltb_spec (now + timeout_) timeout_); unfold u64 in *; lia.
  - rewrite wrap64_overflow by (unfold u64 in *; lia).
    destruct (Z.ltb_spec (now + timeout_ - 2 ^ 64) timeout_);
      unfold u64, UINT64_MAX in *; lia.
Qed.

Lemma clamped_timeout_range (now timeout_ : Z) : u64 (clamped_timeout now timeout_).
Proof.
  unfold clamped_timeout. destruct (_ <? _); [|apply wrap64_range].
  unfold u64, UINT64_MAX. lia.
Qed.

(** ** The comparator as an order *)

Lemma timer_less_than_false (a b : uv_timer_t) :
  timer_less_than a b = false <-> key_le b a.
Proof.
  rewrite <- not_true_iff_false, timer_less_than_iff. unfold key_le. lia.
Qed.

(** C2: [timer_less_than a b] holds exactly when [a] has the smaller
    deadline, or the same deadline and the smaller sequence number; this is a
    strict total order on the pairs (deadline, sequence number): irreflexive,
    transitive, and two records are unrelated only when their keys are
    equal. *)
Theorem timer_less_than_strict_total_order :
  (forall a b : uv_timer_t,
     timer_less_than a b = true <->
     timeout a < timeout b \/ (timeout a = timeout b /\ start_id a < start_id b)) /\
  (forall a : uv_timer_t, timer_less_than a a = false) /\
  (forall a b c : uv_timer_t,
     timer_less_than a b = true -> timer_less_than b c = true ->
     timer_less_than a c = true) /\
  (forall a b : uv_timer_t,
     timer_less_than a b = true \/ timer_less_than b a = true \/
     (timeout a = timeout b /\ start_id a = start_id b)).
Proof.
  split; [exact timer_less_than_iff|]. split; [|split].
  - intros a. apply not_true_iff_false. rewrite timer_less_than_iff. lia.
  - intros a b c. rewrite !timer_less_than_iff. lia.
  - intros a b. rewrite !timer_less_than_iff. lia.
Qed.

(** ** Starting a timer *)

(** C4: the deadline [uv_timer_start] stores is the saturating 64-bit sum of
    the loop time and the timeout: an overflowing sum is stored as
    [UINT64_MAX], in particular for [timeout = UINT64_MAX] when the loop time
    is positive. *)
Theorem uv_timer_start_deadline_saturates
    (w : world) (h : handle) (t : uv_timer_t) (cb : uv_timer_cb) (timeout_ repeat_ : Z) :
  mem w !! h = Some t -> closing t = false -> cb <> NULL ->
  (active t = true -> h ∈ timer_heap (loop w)) ->
  u64 (time (loop w)) -> u64 timeout_ ->
  exists w' t',
    uv_timer_start h cb timeout_ repeat_ w = Ok (0, w') /\
    mem w' !! h = Some t' /\
    timeout t' = Z.min (time (loop w) + timeout_) UINT64_MAX /\
    (UINT64_MAX < time (loop w) + timeout_ -> timeout t' = UINT64_MAX) /\
    (timeout_ = UINT64_MAX -> 0 < time (loop w) -> timeout t' = UINT64_MAX).
Proof.
  intros Hm Hc Hcb Hin Hnow Hto.
  eexists _, _. split; [apply (uv_timer_start_ok _ _ _ _ _ _ Hm Hc Hcb Hin)|].
  split; [cbn; apply lookup_insert_eq|]. cbn [timeout].
  rewrite (clamped_timeout_saturates _ _ Hnow Hto).
  unfold u64 in *. repeat split; lia.
Qed.

Lemma uv_timer_start_deadline_saturates_witness :
  exists w' t',
    uv_timer_start 1 7 UINT64_MAX 0 (idle_world 5) = Ok (0, w') /\
    mem w' !! 1 = Some t' /\
    timeout t' = Z.min (5 + UINT64_MAX) UINT64_MAX /\
    (UINT64_MAX < 5 + UINT64_MAX -> timeout t' = UINT64_MAX) /\
    (UINT64_MAX = UINT64_MAX -> 0 < 5 -> timeout t' = UINT64_MAX).
Proof.
  apply (uv_timer_start_deadline_saturates (idle_world 5) 1 idle_timer 7 UINT64_MAX 0);
    try reflexivity; try discriminate; vm_compute; split; discriminate.
Defined.

(** C5: [uv_timer_start] returns [UV_EINVAL] exactly when the handle is
    closing or the callback is NULL, and then leaves the state as it was;
    otherwise it returns 0. *)
Theorem uv_timer_start_einval_iff
    (w : world) (h : handle) (t : uv_timer_t) (cb : uv_timer_cb) (timeout_ repeat_ : Z) :
  mem w !! h = Some t ->
  (active t = true -> h ∈ timer_heap (loop w)) ->
  exists r w',
    uv_timer_start h cb timeout_ repeat_ w = Ok (r, w') /\
    (r = UV_EINVAL <-> closing t = true \/ cb = NULL) /\
    (r = UV_EINVAL -> w' = w) /\
    (r <> UV_EINVAL -> r = 0).
Proof.
  intros Hm Hin.
  destruct (closing t) eqn:Hc.
  - exists UV_EINVAL, w. split; [apply (uv_timer_start_einval _ _ _ _ _ _ Hm); auto|].
    tauto.
  - destruct (decide (cb = NULL)) as [Hcb|Hcb].
    + exists UV_EINVAL, w. split; [apply (uv_timer_start_einval _ _ _ _ _ _ Hm); auto|].
      tauto.
    + exists 0, (started w h t cb timeout_ repeat_).
      split; [apply (uv_timer_start_ok _ _ _ _ _ _ Hm Hc Hcb Hin)|].
      unfold UV_EINVAL. repeat split; try discriminate; try tauto.
      intros [?|?]; [discriminate | contradiction].
Qed.

Lemma uv_timer_start_einval_iff_witness :
  exists r w',
    uv_timer_start 1 NULL 10 0 (idle_world 5) = Ok (r, w') /\
    (r = UV_EINVAL <-> closing idle_timer = true \/ NULL = NULL) /\
    (r = UV_EINVAL -> w' = idle_world 5) /\
    (r <> UV_EINVAL -> r = 0).
Proof.
  apply (uv_timer_start_einval_iff (idle_world 5) 1 idle_timer NULL 10 0).
  - reflexivity.
  - discriminate.
Defined.

(** ** Re-arming a timer *)

(** C6, as amended: [uv_timer_again] fails with [UV_EINVAL] exactly when the
    handle has no callback or a zero repeat.  Otherwise it leaves the state
    that [uv_timer_start h (timer_cb t) (repeat t) (repeat t)] leaves and
    returns 0, which is also what that call returns when the handle is not
    closing. *)
Theorem uv_timer_again_as_start (w : world) (h : handle) (t : uv_timer_t) :
  mem w !! h = Some t ->
  ((exists w', uv_timer_again h w = Ok (UV_EINVAL, w')) <->
   timer_cb t = NULL \/ repeat t = 0) /\
  (timer_cb t = NULL \/ repeat t = 0 -> uv_timer_again h w = Ok (UV_EINVAL, w)) /\
  (timer_cb t <> NULL -> repeat t <> 0 ->
   (forall r w',
      uv_timer_start h (timer_cb t) (repeat t) (repeat t) w = Ok (r, w') ->
      uv_timer_again h w = Ok (0, w')) /\
   (uv_timer_start h (timer_cb t) (repeat t) (repeat t) w = Undefined ->
    uv_timer_again h w = Undefined) /\
   (closing t = false ->
    uv_timer_again h w = uv_timer_start h (timer_cb t) (repeat t) (repeat t) w)).
Proof.
  intros Hm.
  assert (Hdiff : timer_cb t <> NULL -> repeat t <> 0 ->
                  forall w', uv_timer_again h w <> Ok (UV_EINVAL, w')).
  { intros Hcb Hr w'. rewrite (uv_timer_again_calls_start _ _ _ Hm Hcb Hr).
    unfold bind, ret.
    destruct (uv_timer_start _ _ _ _ w) as [[r w1]| |]; unfold UV_EINVAL; congruence. }
  split; [split|split].
  - intros [w' Hw'].
    destruct (decide (timer_cb t = NULL)) as [?|Hcb]; [auto|].
    destruct (decide (repeat t = 0)) as [?|Hr]; [auto|].
    destruct (Hdiff Hcb Hr w' Hw').
  - intros Hc. exists w. apply (uv_timer_again_einval _ _ _ Hm Hc).
  - apply (uv_timer_again_einval _ _ _ Hm).
  - intros Hcb Hr. rewrite (uv_timer_again_calls_start _ _ _ Hm Hcb Hr).
    unfold bind, ret. split; [|split].
    + intros r w' ->. reflexivity.
    + intros ->. reflexivity.
    + intros Hc.
      destruct (decide (active t = true -> h ∈ timer_heap (loop w))) as [Hin|Hn].
      * rewrite (uv_timer_start_ok _ _ _ _ _ _ Hm Hc Hcb Hin). reflexivity.
      * assert (Ha : active t = true).
        { destruct (active t); [reflexivity|]. exfalso. apply Hn. discriminate. }
        assert (Hout : h ∉ timer_heap (loop w)) by (intros Hin; apply Hn; auto).
        rewrite (uv_timer_start_undefined _ _ _ _ _ _ Hm Hc Hcb Ha Hout). reflexivity.
Qed.

Lemma uv_timer_again_as_start_witness :
  uv_timer_again 1 (mk_world (mk_loop 5 1 []) {[1 := mk_timer 7 8 3 0 false false]}) =
  uv_timer_start 1 7 3 3 (mk_world (mk_loop 5 1 []) {[1 := mk_timer 7 8 3 0 false false]}).
Proof.
  apply (uv_timer_again_as_start
           (mk_world (mk_loop 5 1 []) {[1 := mk_timer 7 8 3 0 false false]})
           1 (mk_timer 7 8 3 0 false false)); try reflexivity; discriminate.
Defined.

(** C6, as stated, fails on a closing handle that has a callback and a
    nonzero repeat: [uv_timer_again] returns 0 where the call of
    [uv_timer_start] it stands for returns [UV_EINVAL]. *)
Lemma uv_timer_again_differs_from_start :
  mem closing_world !! 1 = Some (mk_timer 7 8 3 0 true false) /\
  uv_timer_again 1 closing_world = Ok (0, closing_world) /\
  uv_timer_start 1 7 3 3 closing_world = Ok (UV_EINVAL, closing_world) /\
  uv_timer_again 1 closing_world <> uv_timer_start 1 7 3 3 closing_world.
Proof. repeat split. discriminate. Qed.

(** C8: on a closing handle with a callback and a nonzero repeat,
    [uv_timer_again] returns 0 although the [uv_timer_start] it calls fails
    with [UV_EINVAL]; the state is left as it was, so in a well-formed state
    the timer stays inactive and out of the heap. *)
Theorem uv_timer_again_hides_start_failure (w : world) (h : handle) (t : uv_timer_t) :
  mem w !! h = Some t -> timer_cb t <> NULL -> repeat t <> 0 -> closing t = true ->
  uv_timer_start h (timer_cb t) (repeat t) (repeat t) w = Ok (UV_EINVAL, w) /\
  uv_timer_again h w = Ok (0, w) /\
  (wf w -> active t = false /\ h ∉ timer_heap (loop w)).
Proof.
  intros Hm Hcb Hr Hc.
  assert (Hs := uv_timer_start_einval w h t (timer_cb t) (repeat t) (repeat t) Hm (or_introl Hc)).
  split; [exact Hs|]. split.
  - rewrite (uv_timer_again_calls_start _ _ _ Hm Hcb Hr). unfold bind. rewrite Hs.
    reflexivity.
  - intros (_ & _ & _ & _ & Hall). destruct (Hall h t Hm) as (_ & _ & _ & Hact & Hcl).
    destruct (active t) eqn:Ha.
    + destruct (Hcl eq_refl) as [Hf _]. congruence.
    + split; [reflexivity|]. intros Hin. apply Hact in Hin. discriminate.
Qed.

Lemma uv_timer_again_hides_start_failure_witness :
  uv_timer_start 1 7 3 3 closing_world = Ok (UV_EINVAL, closing_world) /\
  uv_timer_again 1 closing_world = Ok (0, closing_world) /\
  (wf closing_world -> false = false /\ 1 ∉ timer_heap (loop closing_world)).
Proof.
  apply (uv_timer_again_hides_start_failure closing_world 1 (mk_timer 7 8 3 0 true false));
    try reflexivity; discriminate.
Defined.

(** C10: [uv_timer_init] returns 0 and leaves the handle without a callback
    and with a zero repeat, so on the handle it has just initialised
    [uv_timer_again] fails with [UV_EINVAL] and [uv_timer_get_repeat]
    returns 0. *)
Theorem uv_timer_init_fresh (w : world) (h : handle) (t : uv_timer_t) :
  mem w !! h = Some t ->
  exists w' t',
    uv_timer_init h w = Ok (0, w') /\
    mem w' !! h = Some t' /\ timer_cb t' = NULL /\ repeat t' = 0 /\
    uv_timer_again h w' = Ok (UV_EINVAL, w') /\
    uv_timer_get_repeat h w' = Ok (0, w').
Proof.
  intros Hm. eexists _, _. split; [apply (uv_timer_init_ok _ _ _ Hm)|].
  assert (Hl : forall m : gmap Z uv_timer_t, forall x, (<[h := x]> m) !! h = Some x)
    by (intros; apply lookup_insert_eq).
  split; [cbn; apply Hl|]. split; [reflexivity|]. split; [reflexivity|]. split.
  - eapply uv_timer_again_einval; [cbn; apply Hl | left; reflexivity].
  - erewrite uv_timer_get_repeat_ok by (cbn; apply Hl). reflexivity.
Qed.

Lemma uv_timer_init_fresh_witness :
  exists w' t',
    uv_timer_init 1 closing_world = Ok (0, w') /\
    mem w' !! 1 = Some t' /\ timer_cb t' = NULL /\ repeat t' = 0 /\
    uv_timer_again 1 w' = Ok (UV_EINVAL, w') /\
    uv_timer_get_repeat 1 w' = Ok (0, w').
Proof.
  apply (uv_timer_init_fresh closing_world 1 (mk_timer 7 8 3 0 true false)).
  reflexivity.
Defined.

(** ** The heap model *)

Lemma remove_first_notin (h : handle) (hp : list handle) :
  h ∉ hp -> remove_first h hp = hp.
Proof.
  induction hp as [|y r IH]; [reflexivity|]. intros Hn. cbn.
  destruct (decide (h = y)) as [->|Hne].
  - exfalso. apply Hn. left.
  - rewrite IH; [reflexivity|]. intros Hin. apply Hn. right. exact Hin.
Qed.

Lemma remove_first_incl (h x : handle) (hp : list handle) :
  x ∈ remove_first h hp -> x ∈ hp.
Proof.
  induction hp as [|y r IH]; cbn; [auto|].
  destruct (decide (h = y)) as [->|Hne].
  - intros Hin. right. exact Hin.
  - intros Hin. apply elem_of_cons in Hin as [->|Hin]; [left | right; auto].
Qed.

Lemma elem_of_remove_first (h x : handle) (hp : list handle) :
  NoDup hp -> x ∈ remove_first h hp <-> x ∈ hp /\ x <> h.
Proof.
  induction hp as [|y r IH]; cbn; intros Hnd.
  - split; [intros Hin | intros [Hin _]]; inversion Hin.
  - apply NoDup_cons in Hnd as [Hy Hnd]. destruct (decide (h = y)) as [->|Hne].
    + rewrite elem_of_cons. split.
      * intros Hin. split; [auto|]. intros ->. contradiction.
      * intros [[->|Hin] Hx]; [contradiction | exact Hin].
    + rewrite !elem_of_cons, (IH Hnd). split.
      * intros [->|[Hin Hx]]; auto.
      * intros [[->|Hin] Hx]; auto.
Qed.

Lemma NoDup_remove_first (h : handle) (hp : list handle) :
  NoDup hp -> NoDup (remove_first h hp).
Proof.
  induction hp as [|y r IH]; cbn; intros Hnd; [constructor|].
  apply NoDup_cons in Hnd as [Hy Hnd]. destruct (decide (h = y)); [exact Hnd|].
  apply NoDup_cons. split; [|auto]. intros Hin. apply Hy. eapply remove_first_incl, Hin.
Qed.

Lemma heap_min_None (less : handle -> handle -> bool) (hp : list handle) :
  heap_min less hp = None <-> hp = [].
Proof.
  destruct hp as [|x r]; cbn; [tauto|].
  destruct (heap_min less r) as [m|]; [destruct (less m x)|]; split; discriminate.
Qed.

Lemma heap_min_elem (less : handle -> handle -> bool) (hp : list handle) (m : handle) :
  heap_min less hp = Some m -> m ∈ hp.
Proof.
  revert m. induction hp as [|x r IH]; cbn; intros m; [discriminate|].
  destruct (heap_min less r) as [m'|].
  - destruct (less m' x); intros [= <-]; [right; auto | left].
  - intros [= <-]. left.
Qed.

Lemma node_less_false (m : gmap handle uv_timer_t) (a b : handle) (ta tb : uv_timer_t) :
  m !! a = Some ta -> m !! b = Some tb ->
  node_less m a b = false <-> key_le tb ta.
Proof.
  intros Ha Hb. unfold node_less. rewrite Ha, Hb. apply timer_less_than_false.
Qed.

Lemma key_le_refl (a : uv_timer_t) : key_le a a.
Proof. unfold key_le. lia. Qed.

Lemma key_le_trans (a b c : uv_timer_t) : key_le a b -> key_le b c -> key_le a c.
Proof. unfold key_le. lia. Qed.

Lemma key_le_same (a a' b b' : uv_timer_t) :
  same_key a a' -> same_key b b' -> key_le a b -> key_le a' b'.
Proof. unfold key_le, same_key. lia. Qed.

(** What [heap_min] returns under the timers' comparator is in the heap and
    no timer of the heap precedes it. *)
Lemma heap_min_least (m : gmap handle uv_timer_t) (hp : list handle) (h : handle) :
  Forall (fun x => is_Some (m !! x)) hp ->
  heap_min (node_less m) hp = Some h ->
  h ∈ hp /\
  exists th, m !! h = Some th /\
    forall x tx, x ∈ hp -> m !! x = Some tx -> key_le th tx.
Proof.
  intros Hall Hmin. split; [eapply heap_min_elem, Hmin|].
  revert h Hmin. induction Hall as [|x r [tx Hx] Hall IH]; cbn; intros h; [discriminate|].
  destruct (heap_min (node_less m) r) as [m'|] eqn:Hr.
  - destruct (IH m' eq_refl) as (tm & Hm' & Hleast).
    destruct (node_less m m' x) eqn:Hless; intros [= <-].
    + exists tm. split; [exact Hm'|]. intros y ty Hy Hty.
      apply elem_of_cons in Hy as [->|Hy]; [|eauto].
      assert (ty = tx) as -> by congruence.
      unfold node_less in Hless. rewrite Hm', Hx in Hless.
      apply timer_less_than_iff in Hless. unfold key_le. lia.
    + exists tx. split; [exact Hx|]. intros y ty Hy Hty.
      apply elem_of_cons in Hy as [->|Hy].
      * assert (ty = tx) as -> by congruence. apply key_le_refl.
      * apply (key_le_trans _ tm); [|eauto].
        apply (node_less_false m m' x tm tx); assumption.
  - intros [= <-]. apply heap_min_None in Hr as ->. exists tx. split; [exact Hx|].
    intros y ty Hy Hty. apply elem_of_cons in Hy as [->|Hy]; [|inversion Hy].
    assert (ty = tx) as -> by congruence. apply key_le_refl.
Qed.

(** ** Well-formed states *)

Lemma wf_timer (w : world) (h : handle) (t : uv_timer_t) :
  wf w -> mem w !! h = Some t -> timer_wf (timer_heap (loop w)) h t.
Proof. intros (_ & _ & _ & _ & Hall) Hm. exact (Hall h t Hm). Qed.

Lemma wf_active_in_heap (w : world) (h : handle) (t : uv_timer_t) :
  wf w -> mem w !! h = Some t -> active t = true <-> h ∈ timer_heap (loop w).
Proof. intros Hwf Hm. apply (wf_timer w h t Hwf Hm). Qed.

Lemma wf_heap_alloc (w : world) (h : handle) :
  wf w -> h ∈ timer_heap (loop w) ->
  exists t, mem w !! h = Some t /\ active t = true /\ closing t = false /\
            timer_cb t <> NULL /\ u64 (timeout t) /\ u64 (repeat t).
Proof.
  intros Hwf Hin. destruct Hwf as (Ht & Hc & Hnd & Halloc & Hall).
  rewrite Forall_forall in Halloc. destruct (Halloc h Hin) as [t Hm].
  destruct (Hall h t Hm) as (Hto & Hrp & _ & Hact & Hcl).
  apply Hact in Hin. destruct (Hcl Hin). eauto 10.
Qed.

(** [uv_timer_stop] keeps the state well-formed. *)
Lemma wf_stopped (w : world) (h : handle) (t : uv_timer_t) :
  wf w -> mem w !! h = Some t -> active t = true -> wf (stopped w h t).
Proof.
  intros Hwf Hm Ha. pose proof Hwf as (Ht & Hc & Hnd & Halloc & Hall).
  unfold wf, stopped. cbn [loop mem time timer_counter timer_heap].
  split; [exact Ht|]. split; [exact Hc|]. split; [apply NoDup_remove_first, Hnd|].
  split.
  - rewrite Forall_forall in *. intros x Hx. apply remove_first_incl in Hx.
    destruct (decide (x = h)) as [->|Hne].
    + rewrite lookup_insert_eq. eauto.
    + rewrite lookup_insert_ne by auto. auto.
  - intros x tx Hx. destruct (decide (x = h)) as [->|Hne].
    + rewrite lookup_insert_eq in Hx. injection Hx as <-.
      destruct (Hall h t Hm) as (Hto & Hrp & Hsid & Hact & Hcl).
      unfold timer_wf, set_active. cbn.
      split; [exact Hto|]. split; [exact Hrp|]. split; [exact Hsid|].
      split; [|discriminate]. split; [discriminate|].
      intros Hin. apply (elem_of_remove_first h h _ Hnd) in Hin. tauto.
    + rewrite lookup_insert_ne in Hx by auto.
      destruct (Hall x tx Hx) as (Hto & Hrp & Hsid & Hact & Hcl).
      unfold timer_wf. rewrite (elem_of_remove_first h x _ Hnd). tauto.
Qed.

(** [uv_timer_start] keeps the state well-formed. *)
Lemma wf_started (w : world) (h : handle) (t : uv_timer_t)
    (cb : uv_timer_cb) (timeout_ repeat_ : Z) :
  wf w -> mem w !! h = Some t -> closing t = false -> cb <> NULL -> u64 repeat_ ->
  wf (started w h t cb timeout_ repeat_).
Proof.
  intros Hwf Hm Hcl Hcb Hrp. pose proof Hwf as (Ht & Hc & Hnd & Halloc & Hall).
  set (hp := if active t then remove_first h (timer_heap (loop w)) else timer_heap (loop w)).
  assert (Hhp : forall x, x ∈ hp <-> x ∈ timer_heap (loop w) /\ x <> h).
  { intros x. unfold hp. destruct (active t) eqn:Ha.
    - apply elem_of_remove_first, Hnd.
    - split; [|tauto]. intros Hin. split; [exact Hin|]. intros ->.
      apply (wf_active_in_heap w h t Hwf Hm) in Hin. congruence. }
  assert (Hnd' : NoDup hp).
  { unfold hp. destruct (active t); [apply NoDup_remove_first|]; exact Hnd. }
  unfold wf, started. fold hp. cbn [loop mem time timer_counter timer_heap].
  split; [exact Ht|]. split; [apply wrap64_range|]. split.
  { apply NoDup_cons. split; [|exact Hnd']. rewrite Hhp. tauto. }
  split.
  - rewrite Forall_forall in *. intros x Hx.
    destruct (decide (x = h)) as [->|Hne].
    + rewrite lookup_insert_eq. eauto.
    + rewrite lookup_insert_ne by auto. apply Halloc.
      apply elem_of_cons in Hx as [?|Hx]; [contradiction|]. apply Hhp in Hx. tauto.
  - intros x tx Hx. destruct (decide (x = h)) as [->|Hne].
    + rewrite lookup_insert_eq in Hx. injection Hx as <-.
      unfold timer_wf. cbn.
      split; [apply clamped_timeout_range|]. split; [exact Hrp|]. split; [exact Hc|].
      split; [|auto]. split; [intros _; left | reflexivity].
    + rewrite lookup_insert_ne in Hx by auto.
      destruct (Hall x tx Hx) as (Hto & Hr & Hsid & Hact & Hcl').
      unfold timer_wf. rewrite elem_of_cons, Hhp. tauto.
Qed.

(** Every operation of timer.c keeps the state well-formed, so the
    well-formed states are the ones a program reaches from a loop without
    timers. *)
Lemma wf_no_timers (now counter : Z) :
  u64 now -> u64 counter -> wf (mk_world (mk_loop now counter []) ∅).
Proof.
  intros Hn Hc. split; [exact Hn|]. split; [exact Hc|]. split; [constructor|].
  split; [constructor|]. apply map_Forall_empty.
Qed.

Lemma wf_uv_timer_stop (w : world) (h : handle) (t : uv_timer_t) :
  wf w -> mem w !! h = Some t ->
  exists w', uv_timer_stop h w = Ok (0, w') /\ wf w'.
Proof.
  intros Hwf Hm. destruct (active t) eqn:Ha.
  - exists (stopped w h t). split; [|apply wf_stopped; assumption].
    apply (uv_timer_stop_active _ _ _ Hm Ha), (wf_active_in_heap w h t Hwf Hm), Ha.
  - exists w. split; [apply (uv_timer_stop_inactive _ _ _ Hm Ha) | exact Hwf].
Qed.

Lemma wf_uv_timer_start (w : world) (h : handle) (t : uv_timer_t)
    (cb : uv_timer_cb) (timeout_ repeat_ : Z) :
  wf w -> mem w !! h = Some t -> u64 repeat_ ->
  exists r w', uv_timer_start h cb timeout_ repeat_ w = Ok (r, w') /\ wf w'.
Proof.
  intros Hwf Hm Hrp.
  destruct (closing t) eqn:Hcl; [|destruct (decide (cb = NULL)) as [Hcb|Hcb]].
  - exists UV_EINVAL, w. split; [|exact Hwf].
    apply (uv_timer_start_einval _ _ _ _ _ _ Hm). auto.
  - exists UV_EINVAL, w. split; [|exact Hwf].
    apply (uv_timer_start_einval _ _ _ _ _ _ Hm). auto.
  - exists 0, (started w h t cb timeout_ repeat_). split; [|apply wf_started; assumption].
    apply (uv_timer_start_ok _ _ _ _ _ _ Hm Hcl Hcb), (wf_active_in_heap w h t Hwf Hm).
Qed.

Lemma wf_uv_timer_again (w : world) (h : handle) (t : uv_timer_t) :
  wf w -> mem w !! h = Some t ->
  exists r w', uv_timer_again h w = Ok (r, w') /\ wf w'.
Proof.
  intros Hwf Hm.
  destruct (decide (timer_cb t = NULL)) as [Hcb|Hcb];
    [|destruct (decide (repeat t = 0)) as [Hr|Hr]].
  - exists UV_EINVAL, w. split; [|exact Hwf]. apply (uv_timer_again_einval _ _ _ Hm). auto.
  - exists UV_EINVAL, w. split; [|exact Hwf]. apply (uv_timer_again_einval _ _ _ Hm). auto.
  - destruct (wf_timer w h t Hwf Hm) as (_ & Hrp & _).
    destruct (wf_uv_timer_start w h t (timer_cb t) (repeat t) (repeat t) Hwf Hm Hrp)
      as (r & w' & Hs & Hwf').
    exists 0, w'. split; [|exact Hwf'].
    rewrite (uv_timer_again_calls_start _ _ _ Hm Hcb Hr). unfold bind. rewrite Hs.
    reflexivity.
Qed.

Lemma wf_uv_timer_set_repeat (w : world) (h : handle) (t : uv_timer_t) (repeat_ : Z) :
  wf w -> mem w !! h = Some t -> u64 repeat_ ->
  exists w', uv_timer_set_repeat h repeat_ w = Ok (tt, w') /\ wf w'.
Proof.
  intros Hwf Hm Hrp. pose proof Hwf as (Ht & Hc & Hnd & Halloc & Hall).
  unfold uv_timer_set_repeat. rewrite (bind_load _ _ _ _ Hm), (store_ok _ _ _ _ Hm).
  eexists. split; [reflexivity|]. unfold wf. cbn [loop mem].
  split; [exact Ht|]. split; [exact Hc|]. split; [exact Hnd|]. split.
  - rewrite Forall_forall in *. intros x Hx. destruct (decide (x = h)) as [->|Hne].
    + rewrite lookup_insert_eq. eauto.
    + rewrite lookup_insert_ne by auto. auto.
  - intros x tx Hx. destruct (decide (x = h)) as [->|Hne].
    + rewrite lookup_insert_eq in Hx. injection Hx as <-.
      destruct (Hall h t Hm) as (Hto & _ & Hsid & Hact & Hcl).
      unfold timer_wf. cbn. auto.
    + rewrite lookup_insert_ne in Hx by auto. apply (Hall x tx Hx).
Qed.

Lemma wf_uv_timer_init (w : world) (h : handle) (t : uv_timer_t) :
  wf w -> mem w !! h = Some t -> active t = false ->
  exists w', uv_timer_init h w = Ok (0, w') /\ wf w'.
Proof.
  intros Hwf Hm Ha. pose proof Hwf as (Ht & Hc & Hnd & Halloc & Hall).
  rewrite (uv_timer_init_ok _ _ _ Hm). eexists. split; [reflexivity|].
  unfold wf. cbn [loop mem].
  split; [exact Ht|]. split; [exact Hc|]. split; [exact Hnd|]. split.
  - rewrite Forall_forall in *. intros x Hx. destruct (decide (x = h)) as [->|Hne].
    + rewrite lookup_insert_eq. eauto.
    + rewrite lookup_insert_ne by auto. auto.
  - intros x tx Hx. destruct (decide (x = h)) as [->|Hne].
    + rewrite lookup_insert_eq in Hx. injection Hx as <-.
      destruct (Hall h t Hm) as (Hto & _ & Hsid & Hact & Hcl).
      unfold timer_wf. cbn.
      split; [exact Hto|]. split; [split; discriminate|].
      split; [exact Hsid|]. split; [|discriminate].
      rewrite <- Hact, Ha. tauto.
    + rewrite lookup_insert_ne in Hx by auto. apply (Hall x tx Hx).
Qed.

(** ** The next timeout *)

(** C3: [uv__next_timeout] returns -1 on an empty heap; otherwise it looks at
    the least timer of the heap and returns 0 when that timer is due, else
    the time left to its deadline, at most [INT_MAX].  The state is returned
    as it was. *)
Theorem uv__next_timeout_spec (w : world) :
  wf w ->
  exists r,
    uv__next_timeout w = Ok (r, w) /\
    (timer_heap (loop w) = [] -> r = -1) /\
    (timer_heap (loop w) <> [] ->
     exists h t,
       heap_min (node_less (mem w)) (timer_heap (loop w)) = Some h /\
       h ∈ timer_heap (loop w) /\ mem w !! h = Some t /\
       (forall x tx, x ∈ timer_heap (loop w) -> mem w !! x = Some tx -> key_le t tx) /\
       (timeout t <= time (loop w) -> r = 0) /\
       (time (loop w) < timeout t ->
        r = Z.min (timeout t - time (loop w)) INT_MAX)).
Proof.
  intros Hwf. pose proof Hwf as (Ht & Hc & Hnd & Halloc & Hall).
  unfold uv__next_timeout, bind at 1, get_loop. unfold bind at 1, get_mem.
  destruct (heap_min (node_less (mem w)) (timer_heap (loop w))) as [h|] eqn:Hmin.
  - destruct (heap_min_least _ _ _ Halloc Hmin) as (Hin & t & Hm & Hleast).
    rewrite (bind_load _ _ _ _ Hm).
    destruct (Hall h t Hm) as (Hto & _).
    destruct (Z.leb_spec (timeout t) (time (loop w))) as [Hdue|Hlater].
    + exists 0. split; [reflexivity|]. split.
      * intros Hnil. rewrite Hnil in Hin. inversion Hin.
      * intros _. exists h, t. repeat split; auto; lia.
    + rewrite wrap64_small by (unfold u64 in *; lia).
      exists (Z.min (timeout t - time (loop w)) INT_MAX). split.
      * unfold ret. do 2 f_equal.
        destruct (Z.gtb_spec (timeout t - time (loop w)) INT_MAX); lia.
      * split.
        -- intros Hnil. rewrite Hnil in Hin. inversion Hin.
        -- intros _. exists h, t. repeat split; auto; lia.
  - exists (-1). split; [reflexivity|]. split; [reflexivity|].
    intros Hne. apply heap_min_None in Hmin. contradiction.
Qed.

Lemma uv__next_timeout_spec_witness :
  wf (one_timer_world 5) /\
  exists r,
    uv__next_timeout (one_timer_world 5) = Ok (r, one_timer_world 5) /\
    (timer_heap (loop (one_timer_world 5)) = [] -> r = -1) /\
    (timer_heap (loop (one_timer_world 5)) <> [] ->
     exists h t,
       heap_min (node_less (mem (one_timer_world 5)))
                (timer_heap (loop (one_timer_world 5))) = Some h /\
       h ∈ timer_heap (loop (one_timer_world 5)) /\
       mem (one_timer_world 5) !! h = Some t /\
       (forall x tx, x ∈ timer_heap (loop (one_timer_world 5)) ->
                     mem (one_timer_world 5) !! x = Some tx -> key_le t tx) /\
       (timeout t <= time (loop (one_timer_world 5)) -> r = 0) /\
       (time (loop (one_timer_world 5)) < timeout t ->
        r = Z.min (timeout t - time (loop (one_timer_world 5))) INT_MAX)).
Proof.
  assert (Hwf : wf (one_timer_world 5))
    by (apply (bool_decide_unpack _); vm_compute; reflexivity).
  split; [exact Hwf|]. apply (uv__next_timeout_spec (one_timer_world 5) Hwf).
Defined.

(** ** Starting a running timer again *)

(** C7: [uv_timer_start] on a handle that was just started returns 0 and
    leaves the state that [uv_timer_stop] followed by the same
    [uv_timer_start] leaves: the handle is in the heap once, with the
    arguments, the deadline and the sequence number of the second start. *)
Theorem uv_timer_start_restarts
    (w : world) (h : handle) (t : uv_timer_t)
    (cb1 : uv_timer_cb) (timeout1 repeat1 : Z)
    (cb2 : uv_timer_cb) (timeout2 repeat2 : Z) :
  wf w -> mem w !! h = Some t -> closing t = false ->
  cb1 <> NULL -> cb2 <> NULL ->
  exists w1 w2 rest,
    uv_timer_start h cb1 timeout1 repeat1 w = Ok (0, w1) /\
    uv_timer_start h cb2 timeout2 repeat2 w1 = Ok (0, w2) /\
    bind (uv_timer_stop h) (fun _ => uv_timer_start h cb2 timeout2 repeat2) w1 = Ok (0, w2) /\
    timer_heap (loop w2) = h :: rest /\ (h ∉ rest) /\
    timer_heap (loop w2) = timer_heap (loop w1) /\
    mem w2 !! h =
      Some (mk_timer cb2 (clamped_timeout (time (loop w)) timeout2) repeat2
                     (timer_counter (loop w1)) false true) /\
    timer_counter (loop w1) = wrap64 (timer_counter (loop w) + 1).
Proof.
  intros Hwf Hm Hcl Hcb1 Hcb2. pose proof Hwf as (Ht & Hc & Hnd & Halloc & Hall).
  pose proof (wf_active_in_heap w h t Hwf Hm) as Hact.
  set (rest := if active t then remove_first h (timer_heap (loop w))
               else timer_heap (loop w)).
  assert (Hrest : h ∉ rest).
  { unfold rest. destruct (active t) eqn:Ha.
    - rewrite (elem_of_remove_first h h _ Hnd). tauto.
    - intros Hin. apply Hact in Hin. discriminate. }
  set (t1 := mk_timer cb1 (clamped_timeout (time (loop w)) timeout1) repeat1
                      (timer_counter (loop w)) (closing t) true).
  set (w1 := started w h t cb1 timeout1 repeat1).
  assert (Hm1 : mem w1 !! h = Some t1) by (cbn; apply lookup_insert_eq).
  assert (Hin1 : h ∈ timer_heap (loop w1)) by (cbn; left).
  exists w1, (started w1 h t1 cb2 timeout2 repeat2), rest.
  split; [apply (uv_timer_start_ok _ _ _ _ _ _ Hm Hcl Hcb1); apply Hact|].
  split; [apply (uv_timer_start_ok _ _ _ _ _ _ Hm1 Hcl Hcb2); auto|].
  assert (Hrm : remove_first h (timer_heap (loop w1)) = rest).
  { cbn. destruct (decide (h = h)); [reflexivity | contradiction]. }
  split.
  { unfold bind. rewrite (uv_timer_stop_active _ _ _ Hm1 eq_refl Hin1).
    erewrite uv_timer_start_ok;
      [| cbn; apply lookup_insert_eq | exact Hcl | exact Hcb2 | discriminate].
    unfold started at 1 2. cbn [active set_active t1 closing loop stopped time
                                timer_counter timer_heap mem].
    rewrite Hrm. rewrite insert_insert_eq. reflexivity. }
  unfold started at 1 2 3. cbn [active t1 loop time timer_counter timer_heap mem closing].
  rewrite Hrm. split; [reflexivity|]. split; [exact Hrest|].
  split; [reflexivity|]. split; [|reflexivity].
  rewrite lookup_insert_eq, Hcl. reflexivity.
Qed.

Lemma uv_timer_start_restarts_witness :
  wf (one_timer_world 5) /\
  exists w1 w2 rest,
    uv_timer_start 1 7 4 0 (one_timer_world 5) = Ok (0, w1) /\
    uv_timer_start 1 8 20 2 w1 = Ok (0, w2) /\
    bind (uv_timer_stop 1) (fun _ => uv_timer_start 1 8 20 2) w1 = Ok (0, w2) /\
    timer_heap (loop w2) = 1 :: rest /\ (1 ∉ rest) /\
    timer_heap (loop w2) = timer_heap (loop w1) /\
    mem w2 !! 1 =
      Some (mk_timer 8 (clamped_timeout (time (loop (one_timer_world 5))) 20) 2
                     (timer_counter (loop w1)) false true) /\
    timer_counter (loop w1) = wrap64 (timer_counter (loop (one_timer_world 5)) + 1).
Proof.
  assert (Hwf : wf (one_timer_world 5))
    by (apply (bool_decide_unpack _); vm_compute; reflexivity).
  split; [exact Hwf|].
  apply (uv_timer_start_restarts (one_timer_world 5) 1 (mk_timer 7 10 0 0 false true)
           7 4 0 8 20 2 Hwf); try reflexivity; discriminate.
Defined.

(** ** One turn of the loop of [uv__run_timers] *)

Section one_turn.

Variable cb_code : uv_timer_cb -> handle -> M unit.

Lemma uv__run_timers_empty (n : nat) (w : world) :
  timer_heap (loop w) = [] -> uv__run_timers cb_code (S n) w = Ok ([], w).
Proof.
  intros Hnil. cbn [uv__run_timers]. unfold bind at 1, get_loop.
  unfold bind at 1, get_mem. rewrite Hnil. reflexivity.
Qed.

Lemma uv__run_timers_not_due (n : nat) (w : world) (h : handle) (t : uv_timer_t) :
  heap_min (node_less (mem w)) (timer_heap (loop w)) = Some h ->
  mem w !! h = Some t -> time (loop w) < timeout t ->
  uv__run_timers cb_code (S n) w = Ok ([], w).
Proof.
  intros Hmin Hm Hlt. cbn [uv__run_timers]. unfold bind at 1, get_loop.
  unfold bind at 1, get_mem. rewrite Hmin, (bind_load _ _ _ _ Hm).
  destruct (Z.gtb_spec (timeout t) (time (loop w))); [reflexivity | lia].
Qed.

(** After [uv_timer_stop] and [uv_timer_again] the due timer is in the state
    [rearmed] describes. *)
Lemma stop_again_rearmed (w : world) (h : handle) (t : uv_timer_t) :
  wf w -> h ∈ timer_heap (loop w) -> mem w !! h = Some t ->
  uv_timer_stop h w = Ok (0, stopped w h t) /\
  uv_timer_again h (stopped w h t) =
    Ok (if repeat t =? 0 then UV_EINVAL else 0, rearmed w h t) /\
  exists t', mem (rearmed w h t) !! h = Some t' /\ timer_cb t' = timer_cb t /\
             timer_cb t <> NULL.
Proof.
  intros Hwf Hin Hm.
  destruct (wf_heap_alloc w h Hwf Hin) as (t0 & Hm0 & Ha & Hcl & Hcb & _).
  assert (t0 = t) as -> by congruence.
  assert (Hms : mem (stopped w h t) !! h = Some (set_active t false))
    by (cbn; apply lookup_insert_eq).
  split; [apply (uv_timer_stop_active _ _ _ Hm Ha Hin)|].
  unfold rearmed. destruct (Z.eqb_spec (repeat t) 0) as [Hr|Hr].
  - split; [apply (uv_timer_again_einval _ _ _ Hms); right; exact Hr|].
    exists (set_active t false). auto.
  - split.
    + rewrite (uv_timer_again_calls_start _ _ _ Hms Hcb Hr). unfold bind.
      erewrite uv_timer_start_ok; [reflexivity | exact Hms | exact Hcl | exact Hcb | discriminate].
    + eexists. split; [cbn; apply lookup_insert_eq|]. auto.
Qed.

Lemma uv__run_timers_due (n : nat) (w : world) (h : handle) (t : uv_timer_t) :
  wf w ->
  heap_min (node_less (mem w)) (timer_heap (loop w)) = Some h ->
  mem w !! h = Some t -> timeout t <= time (loop w) ->
  uv__run_timers cb_code (S n) w =
  bind (cb_code (timer_cb t) h)
       (fun _ => bind (uv__run_timers cb_code n)
                      (fun rest => ret (mk_firing h t (timer_cb t) :: rest)))
       (rearmed w h t).
Proof.
  intros Hwf Hmin Hm Hdue.
  assert (Hin : h ∈ timer_heap (loop w)) by (eapply heap_min_elem, Hmin).
  destruct (stop_again_rearmed w h t Hwf Hin Hm) as (Hstop & Hagain & t' & Hm' & Hcb' & Hcb).
  cbn [uv__run_timers]. unfold bind at 1, get_loop. unfold bind at 1, get_mem.
  rewrite Hmin, (bind_load _ _ _ _ Hm).
  destruct (Z.gtb_spec (timeout t) (time (loop w))); [lia|].
  unfold bind at 1. rewrite Hstop. unfold bind at 1. rewrite Hagain.
  rewrite (bind_load _ _ _ _ Hm'), Hcb'. unfold call.
  apply Z.eqb_neq in Hcb. rewrite Hcb. reflexivity.
Qed.

End one_turn.

(** ** The re-armed state *)

Lemma rearmed_wf (w : world) (h : handle) (t : uv_timer_t) :
  wf w -> h ∈ timer_heap (loop w) -> mem w !! h = Some t -> wf (rearmed w h t).
Proof.
  intros Hwf Hin Hm.
  destruct (wf_heap_alloc w h Hwf Hin) as (t0 & Hm0 & Ha & Hcl & Hcb & _ & Hrp).
  assert (t0 = t) as -> by congruence.
  unfold rearmed. destruct (repeat t =? 0); [apply wf_stopped; assumption|].
  apply wf_started; [apply wf_stopped; assumption | cbn; apply lookup_insert_eq | | |];
    assumption.
Qed.

Lemma rearmed_time (w : world) (h : handle) (t : uv_timer_t) :
  time (loop (rearmed w h t)) = time (loop w).
Proof. unfold rearmed. destruct (repeat t =? 0); reflexivity. Qed.

Lemma rearmed_other (w : world) (h x : handle) (t : uv_timer_t) :
  wf w -> x <> h ->
  mem (rearmed w h t) !! x = mem w !! x /\
  (x ∈ timer_heap (loop (rearmed w h t)) <-> x ∈ timer_heap (loop w)).
Proof.
  intros (_ & _ & Hnd & _) Hne. unfold rearmed.
  destruct (repeat t =? 0); cbn; rewrite ?elem_of_cons, !lookup_insert_ne by auto;
    (split; [reflexivity|]); rewrite (elem_of_remove_first h x _ Hnd); tauto.
Qed.

Lemma rearmed_one_shot (w : world) (h : handle) (t : uv_timer_t) :
  wf w -> repeat t = 0 ->
  (h ∉ timer_heap (loop (rearmed w h t))) /\
  mem (rearmed w h t) !! h = Some (set_active t false).
Proof.
  intros (_ & _ & Hnd & _) Hr. unfold rearmed. rewrite Hr. cbn. split.
  - rewrite (elem_of_remove_first h h _ Hnd). tauto.
  - apply lookup_insert_eq.
Qed.

Lemma rearmed_repeating (w : world) (h : handle) (t : uv_timer_t) :
  repeat t <> 0 ->
  h ∈ timer_heap (loop (rearmed w h t)) /\
  mem (rearmed w h t) !! h =
    Some (mk_timer (timer_cb t) (clamped_timeout (time (loop w)) (repeat t)) (repeat t)
                   (timer_counter (loop w)) (closing t) true).
Proof.
  intros Hr. unfold rearmed. apply Z.eqb_neq in Hr. rewrite Hr. cbn. split.
  - left.
  - apply lookup_insert_eq.
Qed.

(** Below [UINT64_MAX] a re-armed timer is due strictly later than now. *)
Lemma clamped_timeout_later (now repeat_ : Z) :
  u64 now -> u64 repeat_ -> now < UINT64_MAX -> repeat_ <> 0 ->
  now < clamped_timeout now repeat_.
Proof.
  intros Hn Hr Hlt Hnz. rewrite (clamped_timeout_saturates _ _ Hn Hr).
  unfold u64 in *. lia.
Qed.

(** At [UINT64_MAX] it is due at once. *)
Lemma clamped_timeout_at_max (repeat_ : Z) :
  u64 repeat_ -> clamped_timeout UINT64_MAX repeat_ = UINT64_MAX.
Proof.
  intros Hr. assert (Hmax : u64 UINT64_MAX) by (split; [discriminate | apply Z.le_refl]).
  rewrite (clamped_timeout_saturates _ _ Hmax Hr). unfold u64 in *. lia.
Qed.

Lemma elem_of_due_handles (w : world) (x : handle) :
  x ∈ due_handles w <->
  x ∈ timer_heap (loop w) /\ exists t, mem w !! x = Some t /\ timeout t <= time (loop w).
Proof.
  unfold due_handles. rewrite list_elem_of_filter. unfold due.
  destruct (mem w !! x) as [t|].
  - split; [intros [? ?]; eauto | intros (? & t' & [= <-] & ?); auto].
  - split; [tauto | intros (_ & t' & [=] & _)].
Qed.

Lemma NoDup_due_handles (w : world) : wf w -> NoDup (due_handles w).
Proof. intros (_ & _ & Hnd & _). apply NoDup_filter, Hnd. Qed.

(** Stopping and re-arming the due timer [h] takes exactly [h] out of the
    due timers, as long as the clock is below [UINT64_MAX]. *)
Lemma due_handles_rearmed (w : world) (h : handle) (t : uv_timer_t) (x : handle) :
  wf w -> time (loop w) < UINT64_MAX ->
  h ∈ timer_heap (loop w) -> mem w !! h = Some t ->
  x ∈ due_handles (rearmed w h t) <-> x ∈ due_handles w /\ x <> h.
Proof.
  intros Hwf Hlt Hin Hm. rewrite !elem_of_due_handles, rearmed_time.
  destruct (decide (x = h)) as [->|Hne].
  - split; [|tauto]. intros (Hin' & t' & Hm' & Hdue). exfalso.
    destruct (decide (repeat t = 0)) as [Hr|Hr].
    + destruct (rearmed_one_shot w h t Hwf Hr) as [Hout _]. contradiction.
    + destruct (rearmed_repeating w h t Hr) as [_ Hm''].
      rewrite Hm'' in Hm'. injection Hm' as <-. cbn in Hdue.
      destruct (wf_heap_alloc w h Hwf Hin) as (t0 & Hm0 & _ & _ & _ & _ & Hrp).
      assert (t0 = t) as -> by congruence.
      pose proof (clamped_timeout_later (time (loop w)) (repeat t)
                    ltac:(apply Hwf) Hrp Hlt Hr). lia.
  - destruct (rearmed_other w h x t Hwf Hne) as [-> ->]. tauto.
Qed.

Lemma length_due_handles_rearmed (w : world) (h : handle) (t : uv_timer_t) :
  wf w -> time (loop w) < UINT64_MAX ->
  h ∈ timer_heap (loop w) -> mem w !! h = Some t -> timeout t <= time (loop w) ->
  length (due_handles w) = S (length (due_handles (rearmed w h t))).
Proof.
  intros Hwf Hlt Hin Hm Hdue.
  change (S (length (due_handles (rearmed w h t))))
    with (length (h :: due_handles (rearmed w h t))).
  apply Permutation_length, NoDup_Permutation.
  - apply NoDup_due_handles, Hwf.
  - apply NoDup_cons. split.
    + rewrite (due_handles_rearmed w h t h Hwf Hlt Hin Hm). tauto.
    + apply NoDup_due_handles, rearmed_wf; assumption.
  - intros x. rewrite elem_of_cons, (due_handles_rearmed w h t x Hwf Hlt Hin Hm).
    destruct (decide (x = h)) as [->|Hne]; [|tauto].
    split; [auto|]. intros _. apply elem_of_due_handles. eauto.
Qed.

Lemma due_handles_empty_heap (w : world) :
  timer_heap (loop w) = [] -> due_handles w = [].
Proof. unfold due_handles. intros ->. reflexivity. Qed.

Lemma due_handles_min_later (w : world) (h : handle) (t : uv_timer_t) :
  wf w -> heap_min (node_less (mem w)) (timer_heap (loop w)) = Some h ->
  mem w !! h = Some t -> time (loop w) < timeout t -> due_handles w = [].
Proof.
  intros Hwf Hmin Hm Hlt. apply elem_of_nil_inv. intros x Hx.
  apply elem_of_due_handles in Hx as (Hin & tx & Hmx & Hdue).
  destruct (heap_min_least _ _ _ ltac:(apply Hwf) Hmin) as (_ & th & Hmh & Hleast).
  assert (th = t) as -> by congruence.
  pose proof (Hleast x tx Hin Hmx) as Hle. unfold key_le in Hle. lia.
Qed.

(** ** A whole run of [uv__run_timers] *)

Section whole_run.

Variable cb_code : uv_timer_cb -> handle -> M unit.
Hypothesis Hcb : adds_no_timers cb_code.

(** What a callback that starts no timer leaves of the due timers. *)
Lemma due_handles_after_callback (w w' : world) (x : handle) :
  time (loop w') = time (loop w) ->
  (forall x, x ∈ timer_heap (loop w') ->
     x ∈ timer_heap (loop w) /\
     exists t t', mem w !! x = Some t /\ mem w' !! x = Some t' /\ same_key t' t) ->
  x ∈ due_handles w' ->
  x ∈ due_handles w /\
  exists t t', mem w !! x = Some t /\ mem w' !! x = Some t' /\ same_key t' t.
Proof.
  intros Htime Hkeep Hx. apply elem_of_due_handles in Hx as (Hin & t' & Hm' & Hdue).
  destruct (Hkeep x Hin) as (Hin0 & t & t'' & Hm & Hm'' & Hkey).
  assert (t'' = t') as -> by congruence.
  split; [|eauto]. apply elem_of_due_handles. split; [exact Hin0|].
  exists t. split; [exact Hm|]. destruct Hkey as [Hk _]. lia.
Qed.

Lemma uv__run_timers_total (k : nat) (w : world) :
  wf w -> time (loop w) < UINT64_MAX -> (length (due_handles w) <= k)%nat ->
  exists fired w',
    uv__run_timers cb_code (S k) w = Ok (fired, w') /\
    wf w' /\ time (loop w') = time (loop w) /\ nothing_due w' /\
    StronglySorted fires_no_later fired /\
    NoDup (map fired_handle fired) /\
    Forall (fired_from w) fired /\
    (quiet cb_code ->
     length fired = length (due_handles w) /\
     Forall (fun e => mem w !! fired_handle e = Some (fired_timer e)) fired /\
     Forall (settled w' (time (loop w))) fired /\
     (forall x, x ∉ map fired_handle fired ->
        mem w' !! x = mem w !! x /\
        (x ∈ timer_heap (loop w') <-> x ∈ timer_heap (loop w)))).
Proof.
  revert w. induction k as [|k IH]; intros w Hwf Hlt Hlen.
  all: destruct (heap_min (node_less (mem w)) (timer_heap (loop w))) as [h|] eqn:Hmin.
  all: try (
    (* the heap is empty *)
    apply heap_min_None in Hmin as Hnil;
    exists [], w; rewrite (uv__run_timers_empty _ _ _ Hnil);
    split; [reflexivity|]; split; [exact Hwf|]; split; [reflexivity|];
    split; [unfold nothing_due; rewrite Hmin; exact Hnil|];
    split; [constructor|]; split; [constructor|]; split; [constructor|];
    intros _; rewrite (due_handles_empty_heap _ Hnil);
    split; [reflexivity|]; split; [constructor|]; split; [constructor|]; tauto).
  all: destruct (heap_min_least _ _ _ ltac:(apply Hwf) Hmin) as (Hin & t & Hm & Hleast).
  all: destruct (Z_le_gt_dec (timeout t) (time (loop w))) as [Hdue|Hlater].
  all: try (
    (* the minimum is not due *)
    exists [], w; rewrite (uv__run_timers_not_due _ _ _ _ _ Hmin Hm) by lia;
    split; [reflexivity|]; split; [exact Hwf|]; split; [reflexivity|];
    split; [unfold nothing_due; rewrite Hmin; exists t; split; [exact Hm | lia]|];
    split; [constructor|]; split; [constructor|]; split; [constructor|];
    intros _; rewrite (due_handles_min_later _ _ _ Hwf Hmin Hm) by lia;
    split; [reflexivity|]; split; [constructor|]; split; [constructor|]; tauto).
  - (* no fuel left for a due timer: the bound on the due timers excludes it *)
    exfalso. rewrite (length_due_handles_rearmed w h t Hwf Hlt Hin Hm Hdue) in Hlen. lia.
  - (* the minimum is due *)
    pose proof (rearmed_wf w h t Hwf Hin Hm) as Hwf2.
    destruct (stop_again_rearmed w h t Hwf Hin Hm) as (_ & _ & tr & Hmr & Hcbr & Hnn).
    destruct (Hcb h _ tr Hwf2 Hmr ltac:(rewrite Hcbr; exact Hnn))
      as (w3 & Hcall & Hwf3 & Htime3 & Hkeep).
    rewrite Hcbr in Hcall.
    rewrite rearmed_time in Htime3.
    assert (Hback : forall x, x ∈ due_handles w3 ->
              x <> h /\ x ∈ due_handles w /\
              exists tw t3, mem w !! x = Some tw /\ mem w3 !! x = Some t3 /\ same_key t3 tw).
    { intros x Hx.
      destruct (due_handles_after_callback (rearmed w h t) w3 x
                  ltac:(rewrite rearmed_time; exact Htime3) Hkeep Hx)
        as (Hx2 & t2 & t3 & Hm2 & Hm3 & Hkey).
      apply (due_handles_rearmed w h t x Hwf Hlt Hin Hm) in Hx2 as [Hxw Hne].
      split; [exact Hne|]. split; [exact Hxw|].
      destruct (rearmed_other w h x t Hwf Hne) as [Heq _]. rewrite Heq in Hm2. eauto. }
    assert (Hlen3 : (length (due_handles w3) <= length (due_handles (rearmed w h t)))%nat).
    { apply submseteq_length, NoDup_submseteq; [apply NoDup_due_handles, Hwf3|].
      intros x Hx.
      apply (due_handles_after_callback (rearmed w h t) w3 x
               ltac:(rewrite rearmed_time; exact Htime3) Hkeep Hx). }
    pose proof (length_due_handles_rearmed w h t Hwf Hlt Hin Hm Hdue) as Hlen2.
    destruct (IH w3 Hwf3 ltac:(lia) ltac:(lia))
      as (rest & w' & Hrun & Hwf' & Htime' & Hexit & Hsorted & Hnd & Hfrom & Hquiet).
    exists (mk_firing h t (timer_cb t) :: rest), w'.
    rewrite (uv__run_timers_due _ _ _ _ _ Hwf Hmin Hm Hdue).
    unfold bind at 1. rewrite Hcall. unfold bind at 1. rewrite Hrun.
    split; [reflexivity|]. split; [exact Hwf'|]. split; [lia|]. split; [exact Hexit|].
    rewrite Forall_forall in Hfrom.
    split; [|split; [|split]].
    + constructor; [exact Hsorted|]. apply Forall_forall. intros e He.
      destruct (Hfrom e He) as (Hdue3 & _ & _ & t3 & Hm3 & Hkey3).
      destruct (Hback _ Hdue3) as (_ & Hduew & tw & t3' & Hmw & Hm3' & Hkeyw).
      assert (t3' = t3) as -> by congruence.
      apply elem_of_due_handles in Hduew as [Hinw _].
      unfold fires_no_later. cbn [fired_timer].
      pose proof (Hleast _ _ Hinw Hmw) as Hle.
      unfold key_le, same_key in *. lia.
    + cbn [map fired_handle]. apply NoDup_cons. split; [|exact Hnd].
      intros Hh. apply list_elem_of_fmap in Hh as (e & Heq & He).
      destruct (Hfrom e He) as (Hdue3 & _). destruct (Hback _ Hdue3) as [Hne _].
      congruence.
    + constructor.
      * unfold fired_from. cbn [fired_handle fired_timer fired_cb].
        split; [apply elem_of_due_handles; eauto|]. split; [reflexivity|].
        split; [exact Hnn|]. exists t. split; [exact Hm|]. split; reflexivity.
      * apply Forall_forall. intros e He.
        destruct (Hfrom e He) as (Hdue3 & Hcbe & Hcbn & t3 & Hm3 & Hkey3).
        destruct (Hback _ Hdue3) as (_ & Hduew & tw & t3' & Hmw & Hm3' & Hkeyw).
        assert (t3' = t3) as -> by congruence.
        unfold fired_from. split; [exact Hduew|]. split; [exact Hcbe|].
        split; [exact Hcbn|]. exists tw. split; [exact Hmw|].
        unfold same_key in *. lia.
    + intros Hq. destruct (Hquiet Hq) as (Hlenq & Hrec & Hset & Hframe).
      rewrite (Hq (timer_cb t) h (rearmed w h t)) in Hcall. injection Hcall as <-.
      assert (Hfresh : h ∉ map fired_handle rest).
      { intros Hh. apply list_elem_of_fmap in Hh as (e & Heq & He).
        destruct (Hfrom e He) as (Hdue3 & _). destruct (Hback _ Hdue3) as [Hne _].
        congruence. }
      split; [cbn [length]; lia|]. split; [|split].
      * constructor; [exact Hm|].
        rewrite Forall_forall in Hrec. apply Forall_forall. intros e He.
        destruct (Hfrom e He) as (Hdue3 & _). destruct (Hback _ Hdue3) as [Hne _].
        destruct (rearmed_other w h (fired_handle e) t Hwf Hne) as [Heq _].
        rewrite <- Heq. apply Hrec, He.
      * rewrite rearmed_time in Hset. constructor; [|exact Hset].
        destruct (Hframe h Hfresh) as [Hmh Hinh].
        destruct (wf_heap_alloc w h Hwf Hin) as (t0 & Hm0 & _ & Hcl & _ & _ & Hrp).
        assert (t0 = t) as -> by congruence.
        unfold settled. cbn [fired_handle fired_timer].
        destruct (decide (repeat t = 0)) as [Hr|Hr].
        -- destruct (rearmed_one_shot w h t Hwf Hr) as [Hout Hm'].
           exists (set_active t false). split; [rewrite Hmh; exact Hm'|].
           split; [|intros Hr'; contradiction]. intros _.
           split; [reflexivity|]. intros Hin'. apply Hout, Hinh, Hin'.
        -- destruct (rearmed_repeating w h t Hr) as [Hin' Hm'].
           eexists. split; [rewrite Hmh; exact Hm'|].
           split; [intros Hr'; contradiction|]. intros _. cbn.
           split; [reflexivity|]. split; [apply Hinh, Hin'|]. split; [reflexivity|].
           apply (clamped_timeout_saturates (time (loop w)) _ ltac:(apply Hwf) Hrp).
      * intros x Hx. cbn [map fired_handle] in Hx. apply not_elem_of_cons in Hx as [Hne Hx].
        destruct (Hframe x Hx) as [-> ->]. apply (rearmed_other w h x t Hwf Hne).
Qed.

End whole_run.

Lemma quiet_starts_no_timers (cb_code : uv_timer_cb -> handle -> M unit) :
  quiet cb_code -> starts_no_timers cb_code.
Proof.
  intros Hq cb h w _ Hwf. exists w. split; [apply Hq|]. split; [exact Hwf|].
  split; [reflexivity|]. intros x Hx. split; [exact Hx|].
  destruct (wf_heap_alloc w x Hwf Hx) as (t & Hm & _).
  exists t, t. split; [exact Hm|]. split; [exact Hm|]. split; reflexivity.
Qed.

Lemma quiet_code_quiet : quiet quiet_code.
Proof. intros cb h w. reflexivity. Qed.

Lemma starts_no_timers_adds_no_timers (cb_code : uv_timer_cb -> handle -> M unit) :
  starts_no_timers cb_code -> adds_no_timers cb_code.
Proof. intros Hcb h w t Hwf _ Hnn. apply (Hcb (timer_cb t) h w Hnn Hwf). Qed.

Lemma quiet_adds_no_timers (cb_code : uv_timer_cb -> handle -> M unit) :
  quiet cb_code -> adds_no_timers cb_code.
Proof. intros Hq. apply starts_no_timers_adds_no_timers, quiet_starts_no_timers, Hq. Qed.

Lemma quiet_keeps_repeating_timer (cb_code : uv_timer_cb -> handle -> M unit) :
  quiet cb_code -> keeps_repeating_timer cb_code.
Proof.
  intros Hq h w t w' Hwf _ _ Hrep Hcall. rewrite Hq in Hcall. injection Hcall as <-.
  auto.
Qed.

(** ** A run that never ends *)

Section endless_run.

Variable cb_code : uv_timer_cb -> handle -> M unit.
Hypothesis Hquiet : quiet cb_code.

Lemma uv__run_timers_diverges (n : nat) (w : world) :
  wf w -> time (loop w) = UINT64_MAX ->
  (exists h t, h ∈ timer_heap (loop w) /\ mem w !! h = Some t /\ repeat t <> 0) ->
  uv__run_timers cb_code n w = OutOfFuel.
Proof.
  revert w. induction n as [|n IH]; intros w Hwf Hmax (h & t & Hin & Hm & Hr);
    [reflexivity|].
  destruct (heap_min (node_less (mem w)) (timer_heap (loop w))) as [m|] eqn:Hmin.
  2: { apply heap_min_None in Hmin. rewrite Hmin in Hin. inversion Hin. }
  assert (Hinm : m ∈ timer_heap (loop w)) by (eapply heap_min_elem, Hmin).
  destruct (wf_heap_alloc w m Hwf Hinm) as (tm & Hmm & _ & Hcl & _ & Hto & _).
  assert (Hdue : timeout tm <= time (loop w)) by (rewrite Hmax; apply Hto).
  rewrite (uv__run_timers_due _ _ _ _ _ Hwf Hmin Hmm Hdue).
  unfold bind at 1. rewrite Hquiet. unfold bind at 1.
  rewrite IH; [reflexivity | | |].
  - apply rearmed_wf; assumption.
  - rewrite rearmed_time. exact Hmax.
  - destruct (decide (h = m)) as [->|Hne].
    + assert (tm = t) as -> by congruence.
      destruct (rearmed_repeating w m t Hr) as [Hin' Hm'].
      eexists m, _. split; [exact Hin'|]. split; [exact Hm'|]. exact Hr.
    + destruct (rearmed_other w m h tm Hwf Hne) as [Heq Hiff].
      exists h, t. rewrite Heq, Hiff. auto.
Qed.

End endless_run.

(** ** The claims about [uv__run_timers] *)

(** C1: each turn of the loop of [uv__run_timers] looks at the heap minimum.
    On an empty heap, or when the minimum is not yet due, the loop ends and
    the state is as it was.  Otherwise the minimum [h] is stopped (it leaves
    the heap), then re-armed by [uv_timer_again] (a repeating timer is back
    in the heap with deadline [time + repeat], saturated; a one-shot timer
    stays stopped and out of the heap, [uv_timer_again] failing with
    [UV_EINVAL]), then its callback is called once and the loop goes on.
    When no callback starts a timer and the clock is below [UINT64_MAX], the
    run ends with every firing taken from the timers that were due, each
    handle fired at most once, in ascending (deadline, sequence number)
    order, and with nothing due left; when the callbacks leave the timers
    alone the handles fired are exactly the due ones, and at the end every
    fired one-shot timer is inactive and out of the heap and every fired
    repeating timer is in the heap with deadline [time + repeat],
    saturated. *)
Theorem uv__run_timers_fires_due_in_order
    (cb_code : uv_timer_cb -> handle -> M unit) (w : world) :
  wf w ->
  (forall n, timer_heap (loop w) = [] -> uv__run_timers cb_code (S n) w = Ok ([], w)) /\
  (forall n h t,
     heap_min (node_less (mem w)) (timer_heap (loop w)) = Some h ->
     mem w !! h = Some t ->
     (time (loop w) < timeout t -> uv__run_timers cb_code (S n) w = Ok ([], w)) /\
     (timeout t <= time (loop w) ->
      uv_timer_stop h w = Ok (0, stopped w h t) /\
      (h ∉ timer_heap (loop (stopped w h t))) /\
      uv_timer_again h (stopped w h t) =
        Ok (if repeat t =? 0 then UV_EINVAL else 0, rearmed w h t) /\
      (repeat t <> 0 ->
       h ∈ timer_heap (loop (rearmed w h t)) /\
       mem (rearmed w h t) !! h =
         Some (mk_timer (timer_cb t) (Z.min (time (loop w) + repeat t) UINT64_MAX)
                        (repeat t) (timer_counter (loop w)) false true)) /\
      (repeat t = 0 ->
       rearmed w h t = stopped w h t /\
       (h ∉ timer_heap (loop (rearmed w h t))) /\
       mem (rearmed w h t) !! h = Some (set_active t false)) /\
      uv__run_timers cb_code (S n) w =
        bind (cb_code (timer_cb t) h)
             (fun _ => bind (uv__run_timers cb_code n)
                            (fun rest => ret (mk_firing h t (timer_cb t) :: rest)))
             (rearmed w h t))) /\
  (starts_no_timers cb_code -> time (loop w) < UINT64_MAX ->
   exists fired w',
     uv__run_timers cb_code (S (length (due_handles w))) w = Ok (fired, w') /\
     wf w' /\ nothing_due w' /\
     StronglySorted fires_no_later fired /\
     NoDup (map fired_handle fired) /\
     Forall (fired_from w) fired /\
     (quiet cb_code ->
      map fired_handle fired ≡ₚ due_handles w /\
      Forall (fun e => mem w !! fired_handle e = Some (fired_timer e)) fired /\
      Forall (settled w' (time (loop w))) fired)).
Proof.
  intros Hwf. split; [|split].
  - intros n. apply uv__run_timers_empty.
  - intros n h t Hmin Hm. split.
    + apply (uv__run_timers_not_due _ _ _ _ _ Hmin Hm).
    + intros Hdue.
      assert (Hin : h ∈ timer_heap (loop w)) by (eapply heap_min_elem, Hmin).
      destruct (stop_again_rearmed w h t Hwf Hin Hm) as (Hstop & Hagain & _).
      destruct (wf_heap_alloc w h Hwf Hin) as (t0 & Hm0 & _ & Hcl & _ & _ & Hrp).
      assert (t0 = t) as -> by congruence.
      split; [exact Hstop|]. split.
      { cbn. rewrite (elem_of_remove_first h h _ ltac:(apply Hwf)). tauto. }
      split; [exact Hagain|]. split; [|split].
      * intros Hr. destruct (rearmed_repeating w h t Hr) as [Hin' Hm'].
        split; [exact Hin'|]. rewrite Hm', Hcl.
        rewrite (clamped_timeout_saturates (time (loop w)) _ ltac:(apply Hwf) Hrp). reflexivity.
      * intros Hr. destruct (rearmed_one_shot w h t Hwf Hr) as [Hout Hm'].
        split; [|split; assumption]. unfold rearmed. rewrite Hr. reflexivity.
      * apply (uv__run_timers_due _ _ _ _ _ Hwf Hmin Hm Hdue).
  - intros Hcb Hlt.
    destruct (uv__run_timers_total cb_code (starts_no_timers_adds_no_timers _ Hcb)
                (length (due_handles w)) w Hwf Hlt ltac:(reflexivity))
      as (fired & w' & Hrun & Hwf' & _ & Hexit & Hsorted & Hnd & Hfrom & Hq).
    exists fired, w'. split; [exact Hrun|]. split; [exact Hwf'|]. split; [exact Hexit|].
    split; [exact Hsorted|]. split; [exact Hnd|]. split; [exact Hfrom|].
    intros Hquiet. destruct (Hq Hquiet) as (Hlen & Hrec & Hset & _).
    split; [|split; assumption].
    apply submseteq_length_Permutation.
    + apply NoDup_submseteq; [exact Hnd|]. intros x Hx.
      apply list_elem_of_fmap in Hx as (e & -> & He).
      rewrite Forall_forall in Hfrom. apply (Hfrom e He).
    + rewrite length_map. lia.
Qed.

Lemma three_timers_world_wf (now : Z) : u64 now -> wf (three_timers_world now).
Proof.
  intros Hnow.
  assert (Hwf : wf (three_timers_world 0))
    by (apply (bool_decide_unpack _); vm_compute; reflexivity).
  destruct Hwf as (_ & Hrest). split; [exact Hnow | exact Hrest].
Qed.

Lemma uv__run_timers_fires_due_in_order_witness :
  wf (three_timers_world 20) /\ starts_no_timers quiet_code /\
  time (loop (three_timers_world 20)) < UINT64_MAX /\
  exists fired w',
    uv__run_timers quiet_code (S (length (due_handles (three_timers_world 20))))
                   (three_timers_world 20) = Ok (fired, w') /\
    wf w' /\ nothing_due w' /\
    StronglySorted fires_no_later fired /\
    NoDup (map fired_handle fired) /\
    Forall (fired_from (three_timers_world 20)) fired /\
    (quiet quiet_code ->
     map fired_handle fired ≡ₚ due_handles (three_timers_world 20) /\
     Forall (fun e => mem (three_timers_world 20) !! fired_handle e = Some (fired_timer e))
            fired /\
     Forall (settled w' (time (loop (three_timers_world 20)))) fired).
Proof.
  assert (Hwf : wf (three_timers_world 20))
    by (apply three_timers_world_wf; split; [discriminate|discriminate]).
  assert (Hcb : starts_no_timers quiet_code)
    by (apply quiet_starts_no_timers, quiet_code_quiet).
  assert (Hlt : time (loop (three_timers_world 20)) < UINT64_MAX) by reflexivity.
  split; [exact Hwf|]. split; [exact Hcb|]. split; [exact Hlt|].
  destruct (uv__run_timers_fires_due_in_order quiet_code (three_timers_world 20) Hwf)
    as (_ & _ & Hrun).
  exact (Hrun Hcb Hlt).
Defined.

(** The three timers of [three_timers_world] are what three calls of
    [uv_timer_start] leave, and at tick 20 they fire in the order B, A, C;
    B, which repeats every 3 ticks, is re-armed for tick 23. *)
Example three_timers_started :
  bind (uv_timer_start 1 7 10 0)
       (fun _ => bind (uv_timer_start 2 8 5 3) (fun _ => uv_timer_start 3 9 10 0))
       (idle_world 0) = Ok (0, three_timers_world 0).
Proof. vm_compute. reflexivity. Qed.

Example three_timers_fire_in_order :
  exists fired w',
    uv__run_timers quiet_code 4 (three_timers_world 20) = Ok (fired, w') /\
    map fired_handle fired = [2; 1; 3] /\
    map fired_cb fired = [8; 7; 9] /\
    timer_heap (loop w') = [2] /\
    mem w' !! 2 = Some (mk_timer 8 23 3 3 false true) /\
    mem w' !! 1 = Some (mk_timer 7 10 0 0 false false) /\
    uv_timer_again 1 w' = Ok (UV_EINVAL, w').
Proof. eexists _, _. split; [vm_compute; reflexivity|]. repeat split. Qed.

(** What [uv_timer_stop] does in a well-formed state. *)
Lemma uv_timer_stop_effect (w : world) (h : handle) (t : uv_timer_t) :
  wf w -> mem w !! h = Some t ->
  exists w1,
    uv_timer_stop h w = Ok (0, w1) /\ wf w1 /\
    (active t = false -> w1 = w) /\
    (h ∉ timer_heap (loop w1)) /\
    mem w1 !! h = Some (set_active t false) /\
    (forall x, x <> h ->
       mem w1 !! x = mem w !! x /\
       (x ∈ timer_heap (loop w1) <-> x ∈ timer_heap (loop w))) /\
    time (loop w1) = time (loop w) /\
    timer_counter (loop w1) = timer_counter (loop w).
Proof.
  intros Hwf Hm. pose proof (wf_active_in_heap w h t Hwf Hm) as Hact.
  destruct (active t) eqn:Ha.
  - exists (stopped w h t).
    split; [apply (uv_timer_stop_active _ _ _ Hm Ha), Hact; reflexivity|].
    split; [apply wf_stopped; assumption|]. split; [discriminate|].
    assert (Hnd : NoDup (timer_heap (loop w))) by apply Hwf.
    split; [cbn; rewrite (elem_of_remove_first h h _ Hnd); tauto|].
    split; [cbn; apply lookup_insert_eq|]. split; [|split; reflexivity].
    intros x Hne. cbn. rewrite lookup_insert_ne by auto.
    rewrite (elem_of_remove_first h x _ Hnd). tauto.
  - exists w. split; [apply (uv_timer_stop_inactive _ _ _ Hm Ha)|].
    split; [exact Hwf|]. split; [reflexivity|].
    split; [intros Hin; apply Hact in Hin; discriminate|].
    split; [|split; [tauto | split; reflexivity]].
    rewrite Hm. destruct t; cbn in Ha; subst; reflexivity.
Qed.

Lemma stop_own_timer_adds_no_timers : adds_no_timers stop_own_timer.
Proof.
  intros h w t Hwf Hm _.
  destruct (uv_timer_stop_effect w h t Hwf Hm)
    as (w1 & Hstop & Hwf1 & _ & Hout & _ & Hframe & Htime & _).
  exists w1. split; [unfold stop_own_timer, bind; rewrite Hstop; reflexivity|].
  split; [exact Hwf1|]. split; [exact Htime|].
  intros x Hx. assert (Hne : x <> h) by (intros ->; contradiction).
  destruct (Hframe x Hne) as [Hmem Hheap]. split; [apply Hheap, Hx|].
  destruct (wf_heap_alloc w1 x Hwf1 Hx) as (tx & Hmx & _).
  exists tx, tx. rewrite <- Hmem. split; [exact Hmx|]. split; [exact Hmx|].
  split; reflexivity.
Qed.

Lemma nothing_due_no_due_handles (w : world) :
  wf w -> nothing_due w -> due_handles w = [].
Proof.
  intros Hwf. unfold nothing_due.
  destruct (heap_min (node_less (mem w)) (timer_heap (loop w))) as [h|] eqn:Hmin.
  - intros (t & Hm & Hlt). apply (due_handles_min_later w h t Hwf Hmin Hm Hlt).
  - apply due_handles_empty_heap.
Qed.

(** Firings of due timers, no handle twice, as many as there were due
    timers: every due timer fired. *)
Lemma fired_handles_all_due (w : world) (fired : list firing) :
  NoDup (map fired_handle fired) -> Forall (fired_from w) fired ->
  length fired = length (due_handles w) ->
  map fired_handle fired ≡ₚ due_handles w.
Proof.
  intros Hnd Hfrom Hlen. apply submseteq_length_Permutation.
  - apply NoDup_submseteq; [exact Hnd|]. intros x Hx.
    apply list_elem_of_fmap in Hx as (e & -> & He).
    rewrite Forall_forall in Hfrom. apply (Hfrom e He).
  - rewrite length_map. lia.
Qed.

(** With the clock at [UINT64_MAX] and a repeating timer in the heap, a run
    does not return as long as the callbacks leave a repeating timer
    there. *)
Lemma uv__run_timers_never_returns
    (cb_code : uv_timer_cb -> handle -> M unit) (n : nat) (w : world) :
  keeps_repeating_timer cb_code ->
  wf w -> time (loop w) = UINT64_MAX -> has_repeating_timer w ->
  forall fired w', uv__run_timers cb_code n w <> Ok (fired, w').
Proof.
  intros Hkeep. revert w.
  induction n as [|n IH]; intros w Hwf Hmax (x & tx & Hin & Hm & Hr) fired w';
    [discriminate|].
  destruct (heap_min (node_less (mem w)) (timer_heap (loop w))) as [m|] eqn:Hmin.
  2: { apply heap_min_None in Hmin. rewrite Hmin in Hin. inversion Hin. }
  assert (Hinm : m ∈ timer_heap (loop w)) by (eapply heap_min_elem, Hmin).
  destruct (wf_heap_alloc w m Hwf Hinm) as (tm & Hmm & _ & _ & _ & Hto & _).
  assert (Hdue : timeout tm <= time (loop w)) by (rewrite Hmax; apply Hto).
  rewrite (uv__run_timers_due _ _ _ _ _ Hwf Hmin Hmm Hdue).
  destruct (stop_again_rearmed w m tm Hwf Hinm Hmm) as (_ & _ & tr & Hmr & Hcbr & Hnn).
  assert (Hrep : has_repeating_timer (rearmed w m tm)).
  { destruct (decide (x = m)) as [->|Hne].
    - assert (tm = tx) as -> by congruence.
      destruct (rearmed_repeating w m tx Hr) as [Hin' Hm'].
      eexists m, _. split; [exact Hin'|]. split; [exact Hm'|]. exact Hr.
    - destruct (rearmed_other w m x tm Hwf Hne) as [Heq Hiff].
      exists x, tx. rewrite Heq, Hiff. auto. }
  unfold bind at 1.
  destruct (cb_code (timer_cb tm) m (rearmed w m tm)) as [[[] w3]| |] eqn:Hcall;
    [|discriminate..].
  rewrite <- Hcbr in Hcall.
  destruct (Hkeep m _ tr w3 (rearmed_wf w m tm Hwf Hinm Hmm) Hmr
              ltac:(rewrite Hcbr; exact Hnn) Hrep Hcall) as (Hwf3 & Htime3 & Hrep3).
  rewrite rearmed_time in Htime3. unfold bind, ret.
  destruct (uv__run_timers cb_code n w3) as [[rest w4]| |] eqn:Hrun; [|discriminate..].
  exfalso. apply (IH w3 Hwf3 ltac:(lia) Hrep3 rest w4 Hrun).
Qed.

(** C9, as amended: in a turn of the loop of [uv__run_timers] with the clock
    below [UINT64_MAX], [uv_timer_stop] and [uv_timer_again] leave one due
    timer fewer: a repeating timer is re-armed with the deadline
    [time + repeat], saturated, which is strictly later than now, and a
    one-shot timer is out of the heap; the callback is then called in that
    state.  So when no callback starts a timer the run returns, for every
    amount of fuel above the number of due timers, having fired due timers
    only, none twice, in order, and leaving nothing due.  With the clock at
    [UINT64_MAX] a repeating timer is re-armed with the deadline
    [UINT64_MAX] and is due again at once; the run then never returns as
    long as the callbacks leave a repeating timer in the heap, and it is
    out of fuel for every amount of fuel when they leave the timers
    alone. *)
Theorem uv__run_timers_terminates_below_max
    (cb_code : uv_timer_cb -> handle -> M unit) (w : world) :
  wf w ->
  (time (loop w) < UINT64_MAX ->
   (forall n h t,
      heap_min (node_less (mem w)) (timer_heap (loop w)) = Some h ->
      mem w !! h = Some t -> timeout t <= time (loop w) ->
      exists w1 w2 r t2,
        uv_timer_stop h w = Ok (0, w1) /\
        uv_timer_again h w1 = Ok (r, w2) /\
        wf w2 /\ time (loop w2) = time (loop w) /\
        mem w2 !! h = Some t2 /\
        (repeat t <> 0 ->
         h ∈ timer_heap (loop w2) /\
         timeout t2 = Z.min (time (loop w) + repeat t) UINT64_MAX /\
         time (loop w) < timeout t2) /\
        (repeat t = 0 -> (h ∉ timer_heap (loop w2)) /\ active t2 = false) /\
        (forall x, x ∈ due_handles w2 <-> x ∈ due_handles w /\ x <> h) /\
        (length (due_handles w2) < length (due_handles w))%nat /\
        uv__run_timers cb_code (S n) w =
          bind (cb_code (timer_cb t) h)
               (fun _ => bind (uv__run_timers cb_code n)
                              (fun rest => ret (mk_firing h t (timer_cb t) :: rest)))
               w2) /\
   (adds_no_timers cb_code ->
    forall k, (length (due_handles w) <= k)%nat ->
      exists fired w',
        uv__run_timers cb_code (S k) w = Ok (fired, w') /\
        wf w' /\ nothing_due w' /\ due_handles w' = [] /\
        Forall (fired_from w) fired /\
        NoDup (map fired_handle fired) /\
        StronglySorted fires_no_later fired /\
        (quiet cb_code -> map fired_handle fired ≡ₚ due_handles w))) /\
  (time (loop w) = UINT64_MAX ->
   (forall n h t,
      heap_min (node_less (mem w)) (timer_heap (loop w)) = Some h ->
      mem w !! h = Some t -> repeat t <> 0 ->
      exists w1 w2 t2,
        uv_timer_stop h w = Ok (0, w1) /\
        uv_timer_again h w1 = Ok (0, w2) /\
        wf w2 /\ time (loop w2) = time (loop w) /\
        mem w2 !! h = Some t2 /\ repeat t2 = repeat t /\
        timeout t2 = time (loop w) /\
        h ∈ due_handles w2 /\
        uv__run_timers cb_code (S n) w =
          bind (cb_code (timer_cb t) h)
               (fun _ => bind (uv__run_timers cb_code n)
                              (fun rest => ret (mk_firing h t (timer_cb t) :: rest)))
               w2) /\
   (has_repeating_timer w ->
    (keeps_repeating_timer cb_code ->
     forall n fired w', uv__run_timers cb_code n w <> Ok (fired, w')) /\
    (quiet cb_code -> forall n, uv__run_timers cb_code n w = OutOfFuel))).
Proof.
  intros Hwf. split.
  - intros Hlt. split.
    + intros n h t Hmin Hm Hdue.
      assert (Hin : h ∈ timer_heap (loop w)) by (eapply heap_min_elem, Hmin).
      destruct (stop_again_rearmed w h t Hwf Hin Hm) as (Hstop & Hagain & _).
      destruct (wf_heap_alloc w h Hwf Hin) as (t0 & Hm0 & _ & Hcl & _ & _ & Hrp).
      assert (t0 = t) as -> by congruence.
      assert (Hnow : u64 (time (loop w))) by apply Hwf.
      assert (Ht2 : exists t2, mem (rearmed w h t) !! h = Some t2 /\
                (repeat t <> 0 ->
                 h ∈ timer_heap (loop (rearmed w h t)) /\
                 timeout t2 = Z.min (time (loop w) + repeat t) UINT64_MAX /\
                 time (loop w) < timeout t2) /\
                (repeat t = 0 ->
                 (h ∉ timer_heap (loop (rearmed w h t))) /\ active t2 = false)).
      { destruct (decide (repeat t = 0)) as [Hr|Hr].
        - destruct (rearmed_one_shot w h t Hwf Hr) as [Hout Hm'].
          eexists. split; [exact Hm'|]. split; [intros Hr'; contradiction|].
          intros _. split; [exact Hout | reflexivity].
        - destruct (rearmed_repeating w h t Hr) as [Hin' Hm'].
          eexists. split; [exact Hm'|]. split; [|intros Hr'; contradiction].
          intros _. split; [exact Hin'|]. cbn [timeout].
          rewrite (clamped_timeout_saturates _ _ Hnow Hrp).
          split; [reflexivity|]. unfold u64 in *. lia. }
      destruct Ht2 as (t2 & Hm2 & Hrep & Hone).
      exists (stopped w h t), (rearmed w h t), (if repeat t =? 0 then UV_EINVAL else 0), t2.
      split; [exact Hstop|]. split; [exact Hagain|].
      split; [apply rearmed_wf; assumption|]. split; [apply rearmed_time|].
      split; [exact Hm2|]. split; [exact Hrep|]. split; [exact Hone|].
      split; [intros x; apply (due_handles_rearmed w h t x Hwf Hlt Hin Hm)|].
      split; [rewrite (length_due_handles_rearmed w h t Hwf Hlt Hin Hm Hdue); lia|].
      apply (uv__run_timers_due _ _ _ _ _ Hwf Hmin Hm Hdue).
    + intros Hcb k Hk.
      destruct (uv__run_timers_total cb_code Hcb k w Hwf Hlt Hk)
        as (fired & w' & Hrun & Hwf' & _ & Hexit & Hsorted & Hnd & Hfrom & Hq).
      exists fired, w'. split; [exact Hrun|]. split; [exact Hwf'|]. split; [exact Hexit|].
      split; [apply nothing_due_no_due_handles; assumption|].
      split; [exact Hfrom|]. split; [exact Hnd|]. split; [exact Hsorted|].
      intros Hquiet. destruct (Hq Hquiet) as (Hlen & _).
      apply fired_handles_all_due; assumption.
  - intros Hmax. split.
    + intros n h t Hmin Hm Hr.
      assert (Hin : h ∈ timer_heap (loop w)) by (eapply heap_min_elem, Hmin).
      destruct (stop_again_rearmed w h t Hwf Hin Hm) as (Hstop & Hagain & _).
      destruct (wf_heap_alloc w h Hwf Hin) as (t0 & Hm0 & _ & Hcl & _ & Hto & Hrp).
      assert (t0 = t) as -> by congruence.
      assert (Hdue : timeout t <= time (loop w)) by (rewrite Hmax; apply Hto).
      destruct (rearmed_repeating w h t Hr) as [Hin' Hm'].
      apply Z.eqb_neq in Hr as Hrb. rewrite Hrb in Hagain.
      eexists (stopped w h t), (rearmed w h t), _.
      split; [exact Hstop|]. split; [exact Hagain|].
      split; [apply rearmed_wf; assumption|]. split; [apply rearmed_time|].
      split; [exact Hm'|]. split; [reflexivity|].
      assert (Hat : clamped_timeout (time (loop w)) (repeat t) = time (loop w))
        by (rewrite Hmax; apply clamped_timeout_at_max, Hrp).
      split; [exact Hat|]. split.
      * apply elem_of_due_handles. split; [exact Hin'|]. eexists. split; [exact Hm'|].
        cbn [timeout]. rewrite rearmed_time, Hat. lia.
      * apply (uv__run_timers_due _ _ _ _ _ Hwf Hmin Hm Hdue).
    + intros Hrep. split.
      * intros Hkeep n. apply uv__run_timers_never_returns; assumption.
      * intros Hq n. apply uv__run_timers_diverges; assumption.
Qed.

Lemma uv__run_timers_terminates_below_max_witness :
  (wf (three_timers_world 20) /\ time (loop (three_timers_world 20)) < UINT64_MAX /\
   adds_no_timers stop_own_timer /\
   exists fired w',
     uv__run_timers stop_own_timer 4 (three_timers_world 20) = Ok (fired, w') /\
     wf w' /\ nothing_due w' /\ due_handles w' = [] /\
     Forall (fired_from (three_timers_world 20)) fired /\
     NoDup (map fired_handle fired) /\
     StronglySorted fires_no_later fired /\
     (quiet stop_own_timer ->
      map fired_handle fired ≡ₚ due_handles (three_timers_world 20))) /\
  (wf (three_timers_world UINT64_MAX) /\
   time (loop (three_timers_world UINT64_MAX)) = UINT64_MAX /\
   has_repeating_timer (three_timers_world UINT64_MAX) /\
   quiet quiet_code /\
   forall n, uv__run_timers quiet_code n (three_timers_world UINT64_MAX) = OutOfFuel).
Proof.
  assert (Hwf : wf (three_timers_world 20))
    by (apply three_timers_world_wf; split; discriminate).
  assert (Hwfm : wf (three_timers_world UINT64_MAX))
    by (apply three_timers_world_wf; split; [discriminate | apply Z.le_refl]).
  assert (Hrep : has_repeating_timer (three_timers_world UINT64_MAX)).
  { exists 2, (mk_timer 8 5 3 1 false true). split; [right; left|].
    split; [reflexivity | discriminate]. }
  split.
  - split; [exact Hwf|]. split; [reflexivity|].
    split; [exact stop_own_timer_adds_no_timers|].
    destruct (uv__run_timers_terminates_below_max stop_own_timer (three_timers_world 20) Hwf)
      as [Hbelow _].
    destruct (Hbelow eq_refl) as [_ Hends].
    apply (Hends stop_own_timer_adds_no_timers 3%nat). vm_compute. repeat constructor.
  - split; [exact Hwfm|]. split; [reflexivity|]. split; [exact Hrep|].
    split; [exact quiet_code_quiet|].
    destruct (uv__run_timers_terminates_below_max quiet_code
                (three_timers_world UINT64_MAX) Hwfm) as [_ Hatmax].
    destruct (Hatmax eq_refl) as [_ Hdiv].
    destruct (Hdiv Hrep) as [_ Hfuel]. exact (Hfuel quiet_code_quiet).
Defined.

(** C9, as stated, fails in its last sentence: with the clock at
    [UINT64_MAX] and the repeating timer 2 due, the loop does end when the
    callbacks, which start no timer, stop the timer they are called for. *)
Lemma uv__run_timers_ends_at_max_when_callbacks_stop :
  wf (three_timers_world UINT64_MAX) /\
  time (loop (three_timers_world UINT64_MAX)) = UINT64_MAX /\
  2 ∈ due_handles (three_timers_world UINT64_MAX) /\
  mem (three_timers_world UINT64_MAX) !! 2 = Some (mk_timer 8 5 3 1 false true) /\
  adds_no_timers stop_own_timer /\
  exists fired w',
    uv__run_timers stop_own_timer 4 (three_timers_world UINT64_MAX) = Ok (fired, w') /\
    map fired_handle fired = [2; 1; 3] /\
    timer_heap (loop w') = [].
Proof.
  split; [apply three_timers_world_wf; split; [discriminate | apply Z.le_refl]|].
  split; [reflexivity|]. split.
  { apply elem_of_due_handles. split; [right; left|]. eexists. split; [reflexivity|].
    discriminate. }
  split; [reflexivity|]. split; [exact stop_own_timer_adds_no_timers|].
  eexists _, _. split; [vm_compute; reflexivity|]. split; reflexivity.
Qed.

(** * Further properties of timer.c *)

(** ** Stopping *)

(** X1: [uv_timer_stop] returns 0 whether the timer runs or not, and a
    second stop changes nothing.  It takes the handle, and no other, out of
    the heap, clears the active flag and keeps the callback, the repeat, the
    deadline and the sequence number; the clock and the sequence counter are
    not touched.  On a handle that is not active it leaves the state as it
    was. *)
Theorem uv_timer_stop_idempotent (w : world) (h : handle) (t : uv_timer_t) :
  wf w -> mem w !! h = Some t ->
  exists w1,
    uv_timer_stop h w = Ok (0, w1) /\
    uv_timer_stop h w1 = Ok (0, w1) /\
    (active t = false -> w1 = w) /\
    (h ∉ timer_heap (loop w1)) /\
    mem w1 !! h =
      Some (mk_timer (timer_cb t) (timeout t) (repeat t) (start_id t) (closing t) false) /\
    (forall x, x <> h ->
       mem w1 !! x = mem w !! x /\
       (x ∈ timer_heap (loop w1) <-> x ∈ timer_heap (loop w))) /\
    time (loop w1) = time (loop w) /\
    timer_counter (loop w1) = timer_counter (loop w).
Proof.
  intros Hwf Hm.
  destruct (uv_timer_stop_effect w h t Hwf Hm)
    as (w1 & Hstop & Hwf1 & Hsame & Hout & Hm1 & Hframe & Htime & Hcnt).
  exists w1. split; [exact Hstop|].
  split; [apply (uv_timer_stop_inactive _ _ _ Hm1); reflexivity|].
  repeat (split; [assumption|]). assumption.
Qed.

Lemma uv_timer_stop_idempotent_witness :
  wf (three_timers_world 20) /\
  exists w1,
    uv_timer_stop 2 (three_timers_world 20) = Ok (0, w1) /\
    uv_timer_stop 2 w1 = Ok (0, w1) /\
    (active (mk_timer 8 5 3 1 false true) = false -> w1 = three_timers_world 20) /\
    (2 ∉ timer_heap (loop w1)) /\
    mem w1 !! 2 = Some (mk_timer 8 5 3 1 false false) /\
    (forall x, x <> 2 ->
       mem w1 !! x = mem (three_timers_world 20) !! x /\
       (x ∈ timer_heap (loop w1) <-> x ∈ timer_heap (loop (three_timers_world 20)))) /\
    time (loop w1) = time (loop (three_timers_world 20)) /\
    timer_counter (loop w1) = timer_counter (loop (three_timers_world 20)).
Proof.
  assert (Hwf : wf (three_timers_world 20))
    by (apply three_timers_world_wf; split; discriminate).
  split; [exact Hwf|].
  apply (uv_timer_stop_idempotent (three_timers_world 20) 2 (mk_timer 8 5 3 1 false true) Hwf).
  reflexivity.
Defined.

(** X2: starting a stopped timer and stopping it again gives the heap back as
    it was and leaves every other handle alone; what stays is the sequence
    number that was used up, and the callback, deadline and repeat written
    to the handle. *)
Theorem uv_timer_start_stop_restores_heap
    (w : world) (h : handle) (t : uv_timer_t) (cb : uv_timer_cb) (timeout_ repeat_ : Z) :
  wf w -> mem w !! h = Some t -> active t = false -> closing t = false -> cb <> NULL ->
  exists w1 w2,
    uv_timer_start h cb timeout_ repeat_ w = Ok (0, w1) /\
    uv_timer_stop h w1 = Ok (0, w2) /\
    timer_heap (loop w2) = timer_heap (loop w) /\
    time (loop w2) = time (loop w) /\
    timer_counter (loop w2) = wrap64 (timer_counter (loop w) + 1) /\
    (forall x, x <> h -> mem w2 !! x = mem w !! x) /\
    mem w2 !! h =
      Some (mk_timer cb (clamped_timeout (time (loop w)) timeout_) repeat_
                     (timer_counter (loop w)) false false).
Proof.
  intros Hwf Hm Ha Hcl Hcb.
  set (t1 := mk_timer cb (clamped_timeout (time (loop w)) timeout_) repeat_
                      (timer_counter (loop w)) (closing t) true).
  assert (Hm1 : mem (started w h t cb timeout_ repeat_) !! h = Some t1)
    by (cbn; apply lookup_insert_eq).
  exists (started w h t cb timeout_ repeat_),
         (stopped (started w h t cb timeout_ repeat_) h t1).
  split; [apply (uv_timer_start_ok _ _ _ _ _ _ Hm Hcl Hcb); congruence|].
  split; [apply (uv_timer_stop_active _ _ _ Hm1 eq_refl); cbn; left|].
  cbn. rewrite Ha. destruct (decide (h = h)) as [_|Hne]; [|contradiction].
  split; [reflexivity|]. split; [reflexivity|]. split; [reflexivity|]. split.
  - intros x Hne. rewrite !lookup_insert_ne by auto. reflexivity.
  - rewrite lookup_insert_eq. unfold set_active, t1. cbn. rewrite Hcl. reflexivity.
Qed.

Lemma uv_timer_start_stop_restores_heap_witness :
  wf (idle_world 5) /\
  exists w1 w2,
    uv_timer_start 2 7 10 3 (idle_world 5) = Ok (0, w1) /\
    uv_timer_stop 2 w1 = Ok (0, w2) /\
    timer_heap (loop w2) = timer_heap (loop (idle_world 5)) /\
    time (loop w2) = time (loop (idle_world 5)) /\
    timer_counter (loop w2) = wrap64 (timer_counter (loop (idle_world 5)) + 1) /\
    (forall x, x <> 2 -> mem w2 !! x = mem (idle_world 5) !! x) /\
    mem w2 !! 2 =
      Some (mk_timer 7 (clamped_timeout (time (loop (idle_world 5))) 10) 3
                     (timer_counter (loop (idle_world 5))) false false).
Proof.
  assert (Hwf : wf (idle_world 5))
    by (apply (bool_decide_unpack _); vm_compute; reflexivity).
  split; [exact Hwf|].
  apply (uv_timer_start_stop_restores_heap (idle_world 5) 2 idle_timer 7 10 3 Hwf);
    try reflexivity; discriminate.
Defined.

(** ** The repeat interval *)

Lemma heap_min_ext (less1 less2 : handle -> handle -> bool) (hp : list handle) :
  (forall a b, less1 a b = less2 a b) ->
  heap_min less1 hp = heap_min less2 hp.
Proof.
  intros Hext. induction hp as [|x r IH]; [reflexivity|]. cbn. rewrite IH.
  destruct (heap_min less2 r); [rewrite Hext|]; reflexivity.
Qed.

(** The order of the heap reads deadlines and sequence numbers only. *)
Lemma node_less_insert_same_key (m : gmap handle uv_timer_t) (h : handle)
    (t t' : uv_timer_t) (a b : handle) :
  m !! h = Some t -> same_key t' t ->
  node_less (<[h := t']> m) a b = node_less m a b.
Proof.
  intros Hm [Hto Hsid].
  assert (Hlt : forall u v, timeout u = timeout v -> start_id u = start_id v ->
                forall x, timer_less_than u x = timer_less_than v x /\
                          timer_less_than x u = timer_less_than x v).
  { intros u v H1 H2 x. unfold timer_less_than. rewrite H1, H2. auto. }
  unfold node_less.
  destruct (decide (a = h)) as [->|Ha]; destruct (decide (b = h)) as [->|Hb];
    rewrite ?lookup_insert_eq, ?lookup_insert_ne, ?Hm by auto.
  - unfold timer_less_than. rewrite Hto, Hsid. reflexivity.
  - destruct (m !! b); [apply (Hlt t' t Hto Hsid) | reflexivity].
  - destruct (m !! a); [apply (Hlt t' t Hto Hsid) | reflexivity].
  - reflexivity.
Qed.

(** [uv__next_timeout] in closed form. *)
Lemma uv__next_timeout_unfold (w : world) :
  uv__next_timeout w =
  match heap_min (node_less (mem w)) (timer_heap (loop w)) with
  | None => Ok (-1, w)
  | Some h =>
      match mem w !! h with
      | Some t =>
          Ok (if timeout t <=? time (loop w) then 0
              else if wrap64 (timeout t - time (loop w)) >? INT_MAX then INT_MAX
                   else wrap64 (timeout t - time (loop w)), w)
      | None => Undefined
      end
  end.
Proof.
  unfold uv__next_timeout, bind at 1, get_loop. unfold bind at 1, get_mem.
  destruct (heap_min (node_less (mem w)) (timer_heap (loop w))) as [h|]; [|reflexivity].
  unfold bind, load. destruct (mem w !! h) as [t|]; [|reflexivity].
  destruct (timeout t <=? time (loop w)); reflexivity.
Qed.

(** X3: [uv_timer_set_repeat] stores the interval as it is given, and
    [uv_timer_get_repeat] reads it back.  Nothing else changes: the loop, the
    heap, the other handles, and the deadline, callback and flags of this
    one; so a running timer keeps its current deadline and
    [uv__next_timeout] answers as before. *)
Theorem uv_timer_set_repeat_get_repeat
    (w : world) (h : handle) (t : uv_timer_t) (repeat_ : Z) :
  mem w !! h = Some t ->
  exists w1,
    uv_timer_set_repeat h repeat_ w = Ok (tt, w1) /\
    uv_timer_get_repeat h w1 = Ok (repeat_, w1) /\
    loop w1 = loop w /\
    mem w1 !! h =
      Some (mk_timer (timer_cb t) (timeout t) repeat_ (start_id t) (closing t) (active t)) /\
    (forall x, x <> h -> mem w1 !! x = mem w !! x) /\
    (forall r, uv__next_timeout w = Ok (r, w) -> uv__next_timeout w1 = Ok (r, w1)).
Proof.
  intros Hm.
  set (t1 := mk_timer (timer_cb t) (timeout t) repeat_ (start_id t) (closing t) (active t)).
  exists (mk_world (loop w) (<[h := t1]> (mem w))).
  assert (Hm1 : (<[h := t1]> (mem w)) !! h = Some t1) by apply lookup_insert_eq.
  split.
  { unfold uv_timer_set_repeat. rewrite (bind_load _ _ _ _ Hm). apply (store_ok _ _ _ _ Hm). }
  split; [apply (uv_timer_get_repeat_ok _ _ t1); exact Hm1|].
  split; [reflexivity|]. split; [exact Hm1|]. split.
  { intros x Hne. cbn. apply lookup_insert_ne. auto. }
  intros r. rewrite !uv__next_timeout_unfold. cbn [loop mem].
  rewrite (heap_min_ext (node_less (<[h := t1]> (mem w))) (node_less (mem w)))
    by (intros a b; apply (node_less_insert_same_key _ _ t); [exact Hm | split; reflexivity]).
  destruct (heap_min (node_less (mem w)) (timer_heap (loop w))) as [m|].
  - destruct (decide (m = h)) as [->|Hne].
    + rewrite Hm, Hm1. cbn [timeout t1]. intros [= <-]. reflexivity.
    + rewrite lookup_insert_ne by auto. destruct (mem w !! m) as [tm|]; [|discriminate].
      intros [= <-]. reflexivity.
  - intros [= <-]. reflexivity.
Qed.

Lemma uv_timer_set_repeat_get_repeat_witness :
  exists w1,
    uv_timer_set_repeat 2 9 (three_timers_world 2) = Ok (tt, w1) /\
    uv_timer_get_repeat 2 w1 = Ok (9, w1) /\
    loop w1 = loop (three_timers_world 2) /\
    mem w1 !! 2 = Some (mk_timer 8 5 9 1 false true) /\
    (forall x, x <> 2 -> mem w1 !! x = mem (three_timers_world 2) !! x) /\
    (forall r, uv__next_timeout (three_timers_world 2) = Ok (r, three_timers_world 2) ->
               uv__next_timeout w1 = Ok (r, w1)).
Proof.
  apply (uv_timer_set_repeat_get_repeat (three_timers_world 2) 2 (mk_timer 8 5 3 1 false true) 9).
  reflexivity.
Defined.

(** X4: [uv_timer_again] re-arms with the interval last set by
    [uv_timer_set_repeat]: after setting a nonzero interval on a handle that
    has a callback and is not closing, [uv_timer_again] returns 0 and the
    timer is active and due at [time + repeat], saturated; after setting the
    interval to 0 it fails with [UV_EINVAL] and changes nothing. *)
Theorem uv_timer_again_after_set_repeat
    (w : world) (h : handle) (t : uv_timer_t) (repeat_ : Z) :
  wf w -> mem w !! h = Some t -> timer_cb t <> NULL -> closing t = false ->
  u64 repeat_ ->
  exists w1,
    uv_timer_set_repeat h repeat_ w = Ok (tt, w1) /\
    (repeat_ = 0 -> uv_timer_again h w1 = Ok (UV_EINVAL, w1)) /\
    (repeat_ <> 0 ->
     exists w2,
       uv_timer_again h w1 = Ok (0, w2) /\
       h ∈ timer_heap (loop w2) /\
       mem w2 !! h =
         Some (mk_timer (timer_cb t) (Z.min (time (loop w) + repeat_) UINT64_MAX)
                        repeat_ (timer_counter (loop w)) false true)).
Proof.
  intros Hwf Hm Hcb Hcl Hrp.
  set (t1 := mk_timer (timer_cb t) (timeout t) repeat_ (start_id t) (closing t) (active t)).
  set (w1 := mk_world (loop w) (<[h := t1]> (mem w))).
  assert (Hm1 : mem w1 !! h = Some t1) by (cbn; apply lookup_insert_eq).
  exists w1. split.
  { unfold uv_timer_set_repeat. rewrite (bind_load _ _ _ _ Hm). apply (store_ok _ _ _ _ Hm). }
  split.
  - intros Hz. apply (uv_timer_again_einval _ _ _ Hm1). right. exact Hz.
  - intros Hnz. exists (started w1 h t1 (timer_cb t) repeat_ repeat_).
    split.
    + rewrite (uv_timer_again_calls_start w1 h t1 Hm1 Hcb Hnz). unfold bind.
      change (timer_cb t1) with (timer_cb t). change (repeat t1) with repeat_.
      rewrite (uv_timer_start_ok w1 h t1 _ _ _ Hm1 Hcl Hcb); [reflexivity|].
      apply (wf_active_in_heap w h t Hwf Hm).
    + split; [cbn; left|]. cbn. rewrite lookup_insert_eq, Hcl.
      rewrite (clamped_timeout_saturates (time (loop w)) _ ltac:(apply Hwf) Hrp).
      reflexivity.
Qed.

Lemma uv_timer_again_after_set_repeat_witness :
  wf (one_timer_world 5) /\
  exists w1,
    uv_timer_set_repeat 1 4 (one_timer_world 5) = Ok (tt, w1) /\
    (4 = 0 -> uv_timer_again 1 w1 = Ok (UV_EINVAL, w1)) /\
    (4 <> 0 ->
     exists w2,
       uv_timer_again 1 w1 = Ok (0, w2) /\
       1 ∈ timer_heap (loop w2) /\
       mem w2 !! 1 =
         Some (mk_timer 7 (Z.min (time (loop (one_timer_world 5)) + 4) UINT64_MAX)
                        4 (timer_counter (loop (one_timer_world 5))) false true)).
Proof.
  assert (Hwf : wf (one_timer_world 5))
    by (apply (bool_decide_unpack _); vm_compute; reflexivity).
  split; [exact Hwf|].
  apply (uv_timer_again_after_set_repeat (one_timer_world 5) 1
           (mk_timer 7 10 0 0 false true) 4 Hwf);
    try reflexivity; try discriminate. split; discriminate.
Defined.

(** ** The invariant *)

(** X5: every operation of timer.c on an allocated handle returns and keeps
    the state well-formed: the heap holds exactly the active handles, each
    once, active handles are not closing and have a callback, and the
    integer fields stay in range.  [uv_timer_init] is the one operation with
    a condition: the handle must not be active. *)
Theorem timer_operations_keep_wf (w : world) (h : handle) (t : uv_timer_t) :
  wf w -> mem w !! h = Some t ->
  (exists w', uv_timer_stop h w = Ok (0, w') /\ wf w') /\
  (exists w', uv__timer_close h w = Ok (tt, w') /\ wf w') /\
  (forall cb timeout_ repeat_, u64 repeat_ ->
     exists r w', uv_timer_start h cb timeout_ repeat_ w = Ok (r, w') /\ wf w') /\
  (exists r w', uv_timer_again h w = Ok (r, w') /\ wf w') /\
  (forall repeat_, u64 repeat_ ->
     exists w', uv_timer_set_repeat h repeat_ w = Ok (tt, w') /\ wf w') /\
  (active t = false -> exists w', uv_timer_init h w = Ok (0, w') /\ wf w') /\
  (exists r, uv_timer_get_repeat h w = Ok (r, w)) /\
  (exists r, uv__next_timeout w = Ok (r, w)).
Proof.
  intros Hwf Hm.
  destruct (wf_uv_timer_stop w h t Hwf Hm) as (ws & Hstop & Hwfs).
  split; [eauto|]. split.
  { exists ws. split; [|exact Hwfs]. unfold uv__timer_close, bind. rewrite Hstop.
    reflexivity. }
  split; [intros cb timeout_ repeat_ Hrp; apply (wf_uv_timer_start w h t); assumption|].
  split; [apply (wf_uv_timer_again w h t); assumption|].
  split; [intros repeat_ Hrp; apply (wf_uv_timer_set_repeat w h t); assumption|].
  split; [intros Ha; apply (wf_uv_timer_init w h t); assumption|].
  split; [exists (repeat t); apply (uv_timer_get_repeat_ok _ _ _ Hm)|].
  rewrite uv__next_timeout_unfold.
  destruct (heap_min (node_less (mem w)) (timer_heap (loop w))) as [m|] eqn:Hmin; [|eauto].
  apply heap_min_elem in Hmin. destruct (wf_heap_alloc w m Hwf Hmin) as (tm & -> & _).
  eauto.
Qed.

Lemma timer_operations_keep_wf_witness :
  wf (three_timers_world 20) /\
  (exists w', uv_timer_stop 2 (three_timers_world 20) = Ok (0, w') /\ wf w') /\
  (exists w', uv__timer_close 2 (three_timers_world 20) = Ok (tt, w') /\ wf w') /\
  (forall cb timeout_ repeat_, u64 repeat_ ->
     exists r w', uv_timer_start 2 cb timeout_ repeat_ (three_timers_world 20) = Ok (r, w') /\
                  wf w') /\
  (exists r w', uv_timer_again 2 (three_timers_world 20) = Ok (r, w') /\ wf w') /\
  (forall repeat_, u64 repeat_ ->
     exists w', uv_timer_set_repeat 2 repeat_ (three_timers_world 20) = Ok (tt, w') /\ wf w') /\
  (active (mk_timer 8 5 3 1 false true) = false ->
   exists w', uv_timer_init 2 (three_timers_world 20) = Ok (0, w') /\ wf w') /\
  (exists r, uv_timer_get_repeat 2 (three_timers_world 20) = Ok (r, three_timers_world 20)) /\
  (exists r, uv__next_timeout (three_timers_world 20) = Ok (r, three_timers_world 20)).
Proof.
  assert (Hwf : wf (three_timers_world 20))
    by (apply three_timers_world_wf; split; discriminate).
  split; [exact Hwf|].
  apply (timer_operations_keep_wf (three_timers_world 20) 2 (mk_timer 8 5 3 1 false true) Hwf).
  reflexivity.
Defined.

(** ** Sequence numbers *)

(** X6: two timers started one after the other for the same deadline are
    ordered by the sequence numbers [uv_timer_start] takes from
    [timer_counter]: the first started precedes the second, and on a heap
    that held no timer it is the minimum.  The counter wraps at 2^64: when it
    reads [UINT64_MAX] at the first start, the second timer gets sequence
    number 0 and precedes the first. *)
Theorem uv_timer_start_orders_equal_deadlines
    (w : world) (h1 h2 : handle) (t1 t2 : uv_timer_t)
    (cb1 cb2 : uv_timer_cb) (timeout_ repeat1 repeat2 : Z) :
  wf w -> h1 <> h2 ->
  mem w !! h1 = Some t1 -> mem w !! h2 = Some t2 ->
  closing t1 = false -> closing t2 = false -> cb1 <> NULL -> cb2 <> NULL ->
  exists w1 w2 r1 r2,
    uv_timer_start h1 cb1 timeout_ repeat1 w = Ok (0, w1) /\
    uv_timer_start h2 cb2 timeout_ repeat2 w1 = Ok (0, w2) /\
    mem w2 !! h1 = Some r1 /\ mem w2 !! h2 = Some r2 /\
    timeout r1 = timeout r2 /\
    start_id r1 = timer_counter (loop w) /\
    start_id r2 = wrap64 (timer_counter (loop w) + 1) /\
    (timer_counter (loop w) < UINT64_MAX ->
     timer_less_than r1 r2 = true /\ timer_less_than r2 r1 = false /\
     (timer_heap (loop w) = [] ->
      heap_min (node_less (mem w2)) (timer_heap (loop w2)) = Some h1)) /\
    (timer_counter (loop w) = UINT64_MAX ->
     start_id r2 = 0 /\ timer_less_than r2 r1 = true).
Proof.
  intros Hwf Hne Hm1 Hm2 Hcl1 Hcl2 Hcb1 Hcb2.
  pose proof (wf_active_in_heap w h1 t1 Hwf Hm1) as Hact1.
  pose proof (wf_active_in_heap w h2 t2 Hwf Hm2) as Hact2.
  assert (Hc : u64 (timer_counter (loop w))) by apply Hwf.
  set (w1 := started w h1 t1 cb1 timeout_ repeat1).
  assert (Hm2' : mem w1 !! h2 = Some t2) by (cbn; rewrite lookup_insert_ne by auto; exact Hm2).
  assert (Hin2 : active t2 = true -> h2 ∈ timer_heap (loop w1)).
  { intros Ha. cbn. right. apply Hact2 in Ha. destruct (active t1); [|exact Ha].
    apply (elem_of_remove_first h1 h2 _ ltac:(apply Hwf)). auto. }
  set (w2 := started w1 h2 t2 cb2 timeout_ repeat2).
  set (r1 := mk_timer cb1 (clamped_timeout (time (loop w)) timeout_) repeat1
                      (timer_counter (loop w)) (closing t1) true).
  set (r2 := mk_timer cb2 (clamped_timeout (time (loop w)) timeout_) repeat2
                      (wrap64 (timer_counter (loop w) + 1)) (closing t2) true).
  assert (Hr1 : mem w2 !! h1 = Some r1).
  { cbn. rewrite lookup_insert_ne by auto. apply lookup_insert_eq. }
  assert (Hr2 : mem w2 !! h2 = Some r2) by (cbn; apply lookup_insert_eq).
  exists w1, w2, r1, r2.
  split; [apply (uv_timer_start_ok _ _ _ _ _ _ Hm1 Hcl1 Hcb1), Hact1|].
  split; [apply (uv_timer_start_ok _ _ _ _ _ _ Hm2' Hcl2 Hcb2), Hin2|].
  split; [exact Hr1|]. split; [exact Hr2|]. split; [reflexivity|].
  split; [reflexivity|]. split; [reflexivity|]. split.
  - intros Hlt.
    assert (Hsid : start_id r1 < start_id r2).
    { cbn. rewrite wrap64_small by (unfold u64 in *; lia). lia. }
    assert (Hless : timer_less_than r1 r2 = true)
      by (apply timer_less_than_iff; right; split; [reflexivity | exact Hsid]).
    split; [exact Hless|]. split.
    { apply timer_less_than_false. unfold key_le. right. split; [reflexivity | lia]. }
    intros Hnil.
    assert (Ha1 : active t1 = false).
    { destruct (active t1); [|reflexivity]. rewrite Hnil in Hact1.
      destruct Hact1 as [Hin _]. specialize (Hin eq_refl). inversion Hin. }
    assert (Ha2 : active t2 = false).
    { destruct (active t2); [|reflexivity]. rewrite Hnil in Hact2.
      destruct Hact2 as [Hin _]. specialize (Hin eq_refl). inversion Hin. }
    assert (Hheap : timer_heap (loop w2) = [h2; h1])
      by (cbn; rewrite Ha1, Ha2, Hnil; reflexivity).
    rewrite Hheap. cbn [heap_min]. unfold node_less. rewrite Hr1, Hr2, Hless.
    reflexivity.
  - intros Hmax.
    assert (Hz : start_id r2 = 0) by (cbn; rewrite Hmax; reflexivity).
    split; [exact Hz|]. apply timer_less_than_iff. right. split; [reflexivity|].
    rewrite Hz. cbn. rewrite Hmax. reflexivity.
Qed.

Lemma uv_timer_start_orders_equal_deadlines_witness :
  wf (idle_world 5) /\
  exists w1 w2 r1 r2,
    uv_timer_start 3 7 10 0 (idle_world 5) = Ok (0, w1) /\
    uv_timer_start 1 8 10 2 w1 = Ok (0, w2) /\
    mem w2 !! 3 = Some r1 /\ mem w2 !! 1 = Some r2 /\
    timeout r1 = timeout r2 /\
    start_id r1 = timer_counter (loop (idle_world 5)) /\
    start_id r2 = wrap64 (timer_counter (loop (idle_world 5)) + 1) /\
    (timer_counter (loop (idle_world 5)) < UINT64_MAX ->
     timer_less_than r1 r2 = true /\ timer_less_than r2 r1 = false /\
     (timer_heap (loop (idle_world 5)) = [] ->
      heap_min (node_less (mem w2)) (timer_heap (loop w2)) = Some 3)) /\
    (timer_counter (loop (idle_world 5)) = UINT64_MAX ->
     start_id r2 = 0 /\ timer_less_than r2 r1 = true).
Proof.
  assert (Hwf : wf (idle_world 5))
    by (apply (bool_decide_unpack _); vm_compute; reflexivity).
  split; [exact Hwf|].
  apply (uv_timer_start_orders_equal_deadlines (idle_world 5) 3 1 idle_timer idle_timer
           7 8 10 0 2 Hwf); try reflexivity; discriminate.
Defined.

(** ** The wait the loop is told *)

Lemma uv__next_timeout_cases (w : world) :
  wf w ->
  (timer_heap (loop w) = [] /\ uv__next_timeout w = Ok (-1, w)) \/
  (exists h t,
     heap_min (node_less (mem w)) (timer_heap (loop w)) = Some h /\
     h ∈ timer_heap (loop w) /\ mem w !! h = Some t /\
     (forall x tx, x ∈ timer_heap (loop w) -> mem w !! x = Some tx -> key_le t tx) /\
     ((timeout t <= time (loop w) /\ uv__next_timeout w = Ok (0, w)) \/
      (time (loop w) < timeout t /\
       uv__next_timeout w = Ok (Z.min (timeout t - time (loop w)) INT_MAX, w)))).
Proof.
  intros Hwf. rewrite uv__next_timeout_unfold.
  destruct (heap_min (node_less (mem w)) (timer_heap (loop w))) as [h|] eqn:Hmin.
  - right. destruct (heap_min_least _ _ _ ltac:(apply Hwf) Hmin) as (Hin & t & Hm & Hleast).
    exists h, t. rewrite Hm. repeat (split; [assumption || reflexivity|]).
    destruct (wf_timer w h t Hwf Hm) as (Hto & _).
    assert (Hnow : u64 (time (loop w))) by apply Hwf.
    destruct (Z.leb_spec (timeout t) (time (loop w))) as [Hdue|Hlater]; [left; auto|].
    right. split; [exact Hlater|]. rewrite wrap64_small by (unfold u64 in *; lia).
    do 2 f_equal. destruct (Z.gtb_spec (timeout t - time (loop w)) INT_MAX); lia.
  - left. split; [apply heap_min_None in Hmin; exact Hmin | reflexivity].
Qed.

(** X7: what the result of [uv__next_timeout] tells the loop.  It lies
    between -1 and [INT_MAX]; it is -1 exactly when no timer is in the heap
    and 0 exactly when some timer of the heap is due.  A positive result
    never oversleeps: no timer of the heap is due before that many ticks
    have passed, and unless the result was cut to [INT_MAX] some timer is due
    exactly then. *)
Theorem uv__next_timeout_meaning (w : world) :
  wf w ->
  exists r,
    uv__next_timeout w = Ok (r, w) /\
    -1 <= r <= INT_MAX /\
    (r = -1 <-> timer_heap (loop w) = []) /\
    (r = 0 <-> due_handles w <> []) /\
    (0 < r ->
     (forall x t, x ∈ timer_heap (loop w) -> mem w !! x = Some t ->
                  time (loop w) + r <= timeout t) /\
     (r < INT_MAX ->
      exists x t, x ∈ timer_heap (loop w) /\ mem w !! x = Some t /\
                  timeout t = time (loop w) + r)).
Proof.
  intros Hwf.
  assert (Himax : 0 < INT_MAX) by reflexivity.
  destruct (uv__next_timeout_cases w Hwf)
    as [[Hnil Hr] | (h & t & Hmin & Hin & Hm & Hleast & [[Hdue Hr] | [Hlater Hr]])].
  - exists (-1). split; [exact Hr|]. split; [lia|]. split; [tauto|]. split; [|lia].
    rewrite (due_handles_empty_heap w Hnil). split; [discriminate | congruence].
  - exists 0. split; [exact Hr|]. split; [lia|]. split; [|split; [|lia]].
    + split; [discriminate|]. intros Hnil. rewrite Hnil in Hin. inversion Hin.
    + split; [|reflexivity]. intros _ Hnone.
      assert (Hd : h ∈ due_handles w) by (apply elem_of_due_handles; eauto).
      rewrite Hnone in Hd. inversion Hd.
  - exists (Z.min (timeout t - time (loop w)) INT_MAX). split; [exact Hr|].
    split; [lia|]. split; [|split; [|intros _; split]].
    + split; [lia|]. intros Hnil. rewrite Hnil in Hin. inversion Hin.
    + rewrite (due_handles_min_later w h t Hwf Hmin Hm Hlater). split; [lia | congruence].
    + intros x tx Hx Hmx. pose proof (Hleast x tx Hx Hmx) as Hle.
      unfold key_le in Hle. lia.
    + intros Hcut. exists h, t. split; [exact Hin|]. split; [exact Hm|]. lia.
Qed.

Lemma uv__next_timeout_meaning_witness :
  wf (three_timers_world 2) /\
  exists r,
    uv__next_timeout (three_timers_world 2) = Ok (r, three_timers_world 2) /\
    -1 <= r <= INT_MAX /\
    (r = -1 <-> timer_heap (loop (three_timers_world 2)) = []) /\
    (r = 0 <-> due_handles (three_timers_world 2) <> []) /\
    (0 < r ->
     (forall x t, x ∈ timer_heap (loop (three_timers_world 2)) ->
                  mem (three_timers_world 2) !! x = Some t ->
                  time (loop (three_timers_world 2)) + r <= timeout t) /\
     (r < INT_MAX ->
      exists x t, x ∈ timer_heap (loop (three_timers_world 2)) /\
                  mem (three_timers_world 2) !! x = Some t /\
                  timeout t = time (loop (three_timers_world 2)) + r)).
Proof.
  assert (Hwf : wf (three_timers_world 2))
    by (apply three_timers_world_wf; split; discriminate).
  split; [exact Hwf|]. apply (uv__next_timeout_meaning (three_timers_world 2) Hwf).
Defined.

(** X8: [uv__next_timeout] and [uv__run_timers] agree on what is due.  When
    [uv__next_timeout] returns anything but 0, [uv__run_timers] calls no
    callback and leaves the state as it was; when it returns 0, a run that
    returns has fired at least one timer. *)
Theorem uv__run_timers_agrees_with_next_timeout
    (cb_code : uv_timer_cb -> handle -> M unit) (w : world) (r : Z) (n : nat) :
  wf w -> uv__next_timeout w = Ok (r, w) ->
  (r <> 0 -> uv__run_timers cb_code (S n) w = Ok ([], w)) /\
  (r = 0 ->
   forall fired w', uv__run_timers cb_code (S n) w = Ok (fired, w') -> fired <> []).
Proof.
  intros Hwf Hr.
  destruct (uv__next_timeout_cases w Hwf)
    as [[Hnil Hr'] | (h & t & Hmin & Hin & Hm & Hleast & [[Hdue Hr'] | [Hlater Hr']])];
    rewrite Hr' in Hr; injection Hr as <-.
  - split; [intros _; apply uv__run_timers_empty, Hnil | discriminate].
  - split; [congruence|]. intros _ fired w'.
    rewrite (uv__run_timers_due _ _ _ _ _ Hwf Hmin Hm Hdue). unfold bind, ret.
    destruct (cb_code (timer_cb t) h (rearmed w h t)) as [[[] w3]| |]; [|discriminate..].
    destruct (uv__run_timers cb_code n w3) as [[rest w4]| |]; [|discriminate..].
    intros [= <- _]. discriminate.
  - split; [intros _; apply (uv__run_timers_not_due _ _ _ _ _ Hmin Hm Hlater)|].
    assert (Himax : 0 < INT_MAX) by reflexivity. lia.
Qed.

Lemma uv__run_timers_agrees_with_next_timeout_witness :
  wf (three_timers_world 2) /\
  uv__next_timeout (three_timers_world 2) = Ok (3, three_timers_world 2) /\
  (3 <> 0 -> uv__run_timers quiet_code 1 (three_timers_world 2) = Ok ([], three_timers_world 2)) /\
  (3 = 0 ->
   forall fired w',
     uv__run_timers quiet_code 1 (three_timers_world 2) = Ok (fired, w') -> fired <> []).
Proof.
  assert (Hwf : wf (three_timers_world 2))
    by (apply three_timers_world_wf; split; discriminate).
  assert (Hr : uv__next_timeout (three_timers_world 2) = Ok (3, three_timers_world 2))
    by reflexivity.
  split; [exact Hwf|]. split; [exact Hr|].
  apply (uv__run_timers_agrees_with_next_timeout quiet_code (three_timers_world 2) 3 0 Hwf Hr).
Defined.

(** X9: the wait after the first timer is started.  On a loop without
    timers, after [uv_timer_start] with timeout [timeout_],
    [uv__next_timeout] returns [timeout_], cut to the ticks left before the
    clock reaches [UINT64_MAX] and to [INT_MAX]; for [timeout_ = 0] that is
    0, the timer is due at once. *)
Theorem uv__next_timeout_after_start
    (w : world) (h : handle) (t : uv_timer_t) (cb : uv_timer_cb) (timeout_ repeat_ : Z) :
  wf w -> timer_heap (loop w) = [] ->
  mem w !! h = Some t -> closing t = false -> cb <> NULL ->
  u64 timeout_ -> u64 repeat_ ->
  exists w1,
    uv_timer_start h cb timeout_ repeat_ w = Ok (0, w1) /\
    uv__next_timeout w1 =
      Ok (Z.min (Z.min timeout_ (UINT64_MAX - time (loop w))) INT_MAX, w1).
Proof.
  intros Hwf Hnil Hm Hcl Hcb Hto Hrp.
  pose proof (wf_active_in_heap w h t Hwf Hm) as Hact.
  assert (Hnow : u64 (time (loop w))) by apply Hwf.
  assert (Ha : active t = false).
  { destruct (active t); [|reflexivity]. rewrite Hnil in Hact.
    destruct Hact as [Hin _]. specialize (Hin eq_refl). inversion Hin. }
  exists (started w h t cb timeout_ repeat_).
  split; [apply (uv_timer_start_ok _ _ _ _ _ _ Hm Hcl Hcb), Hact|].
  rewrite uv__next_timeout_unfold. cbn [started loop mem timer_heap time].
  rewrite Ha, Hnil. cbn [heap_min]. rewrite lookup_insert_eq. cbn [timeout].
  rewrite (clamped_timeout_saturates _ _ Hnow Hto).
  assert (Himax : 0 < INT_MAX) by reflexivity.
  destruct (Z.leb_spec (Z.min (time (loop w) + timeout_) UINT64_MAX) (time (loop w))).
  - do 2 f_equal. unfold u64 in *. lia.
  - rewrite wrap64_small by (unfold u64 in *; lia).
    do 2 f_equal.
    destruct (Z.gtb_spec (Z.min (time (loop w) + timeout_) UINT64_MAX - time (loop w)) INT_MAX);
      unfold u64 in *; lia.
Qed.

Lemma uv__next_timeout_after_start_witness :
  wf (idle_world 7) /\
  exists w1,
    uv_timer_start 1 7 5 0 (idle_world 7) = Ok (0, w1) /\
    uv__next_timeout w1 =
      Ok (Z.min (Z.min 5 (UINT64_MAX - time (loop (idle_world 7)))) INT_MAX, w1).
Proof.
  assert (Hwf : wf (idle_world 7))
    by (apply (bool_decide_unpack _); vm_compute; reflexivity).
  split; [exact Hwf|].
  apply (uv__next_timeout_after_start (idle_world 7) 1 idle_timer 7 5 0 Hwf);
    try reflexivity; try discriminate; split; discriminate.
Defined.

(** ** After a run *)

Lemma nothing_due_idle (cb_code : uv_timer_cb -> handle -> M unit) (w : world) (n : nat) :
  nothing_due w -> uv__run_timers cb_code (S n) w = Ok ([], w).
Proof.
  unfold nothing_due.
  destruct (heap_min (node_less (mem w)) (timer_heap (loop w))) as [h|] eqn:Hmin.
  - intros (t & Hm & Hlt). apply (uv__run_timers_not_due _ _ _ _ _ Hmin Hm Hlt).
  - apply uv__run_timers_empty.
Qed.

(** X10: once [uv__run_timers] has returned, nothing is due any more: run
    again at the same clock it calls no callback and leaves the state as it
    is, and [uv__next_timeout] does not return 0.  (Callbacks that start no
    timer, such as callbacks that stop timers or change repeat intervals;
    clock below [UINT64_MAX].) *)
Theorem uv__run_timers_then_idle
    (cb_code : uv_timer_cb -> handle -> M unit) (w : world) :
  adds_no_timers cb_code -> wf w -> time (loop w) < UINT64_MAX ->
  exists fired w',
    uv__run_timers cb_code (S (length (due_handles w))) w = Ok (fired, w') /\
    (forall n, uv__run_timers cb_code (S n) w' = Ok ([], w')) /\
    due_handles w' = [] /\
    exists r, uv__next_timeout w' = Ok (r, w') /\ r <> 0.
Proof.
  intros Hcb Hwf Hlt.
  destruct (uv__run_timers_total cb_code Hcb (length (due_handles w)) w Hwf Hlt
              ltac:(reflexivity))
    as (fired & w' & Hrun & Hwf' & _ & Hexit & _).
  exists fired, w'. split; [exact Hrun|].
  split; [intros n; apply nothing_due_idle, Hexit|].
  assert (Himax : 0 < INT_MAX) by reflexivity.
  unfold nothing_due in Hexit.
  destruct (uv__next_timeout_cases w' Hwf')
    as [[Hnil Hr] | (h & t & Hmin & Hin & Hm & Hleast & [[Hdue Hr] | [Hlater Hr]])].
  - split; [apply due_handles_empty_heap, Hnil|]. exists (-1). split; [exact Hr | discriminate].
  - rewrite Hmin in Hexit. destruct Hexit as (t' & Hm' & Hlt'). exfalso.
    assert (t' = t) as -> by congruence. lia.
  - split; [apply (due_handles_min_later w' h t Hwf' Hmin Hm Hlater)|].
    eexists. split; [exact Hr | lia].
Qed.

Lemma uv__run_timers_then_idle_witness :
  adds_no_timers stop_own_timer /\ wf (three_timers_world 20) /\
  exists fired w',
    uv__run_timers stop_own_timer (S (length (due_handles (three_timers_world 20))))
                   (three_timers_world 20) = Ok (fired, w') /\
    (forall n, uv__run_timers stop_own_timer (S n) w' = Ok ([], w')) /\
    due_handles w' = [] /\
    exists r, uv__next_timeout w' = Ok (r, w') /\ r <> 0.
Proof.
  assert (Hwf : wf (three_timers_world 20))
    by (apply three_timers_world_wf; split; discriminate).
  split; [exact stop_own_timer_adds_no_timers|]. split; [exact Hwf|].
  apply (uv__run_timers_then_idle stop_own_timer (three_timers_world 20)
           stop_own_timer_adds_no_timers Hwf).
  reflexivity.
Defined.

(** X11: [uv__run_timers] touches due timers only.  With callbacks that
    leave the timers alone, a handle that is not due (a timer with a later
    deadline, a stopped timer, a handle never started) has the same record
    after the run and is in the heap exactly if it was; the clock is not
    changed. *)
Theorem uv__run_timers_leaves_pending_timers
    (cb_code : uv_timer_cb -> handle -> M unit) (w : world) :
  quiet cb_code -> wf w -> time (loop w) < UINT64_MAX ->
  exists fired w',
    uv__run_timers cb_code (S (length (due_handles w))) w = Ok (fired, w') /\
    time (loop w') = time (loop w) /\
    forall x, x ∉ due_handles w ->
      mem w' !! x = mem w !! x /\
      (x ∈ timer_heap (loop w') <-> x ∈ timer_heap (loop w)).
Proof.
  intros Hq Hwf Hlt.
  destruct (uv__run_timers_total cb_code (quiet_adds_no_timers _ Hq)
              (length (due_handles w)) w Hwf Hlt ltac:(reflexivity))
    as (fired & w' & Hrun & _ & Htime & _ & _ & _ & Hfrom & Hquiet).
  destruct (Hquiet Hq) as (_ & _ & _ & Hframe).
  exists fired, w'. split; [exact Hrun|]. split; [exact Htime|].
  intros x Hx. apply Hframe. intros Hin.
  apply list_elem_of_fmap in Hin as (e & -> & He).
  rewrite Forall_forall in Hfrom. destruct (Hfrom e He) as [Hdue _]. contradiction.
Qed.

Lemma uv__run_timers_leaves_pending_timers_witness :
  quiet quiet_code /\ wf (three_timers_world 7) /\
  exists fired w',
    uv__run_timers quiet_code (S (length (due_handles (three_timers_world 7))))
                   (three_timers_world 7) = Ok (fired, w') /\
    time (loop w') = time (loop (three_timers_world 7)) /\
    forall x, x ∉ due_handles (three_timers_world 7) ->
      mem w' !! x = mem (three_timers_world 7) !! x /\
      (x ∈ timer_heap (loop w') <-> x ∈ timer_heap (loop (three_timers_world 7))).
Proof.
  assert (Hwf : wf (three_timers_world 7))
    by (apply three_timers_world_wf; split; discriminate).
  split; [exact quiet_code_quiet|]. split; [exact Hwf|].
  apply (uv__run_timers_leaves_pending_timers quiet_code (three_timers_world 7)
           quiet_code_quiet Hwf).
  reflexivity.
Defined.

(** X12: a closed timer does not fire.  After [uv__timer_close], which is
    [uv_timer_stop] with the result dropped, the handle is out of the heap
    and a run of [uv__run_timers], which leaves nothing due, does not call
    its callback, due or not; every timer the run fires was due before the
    close.  (Callbacks that
    start no timer, such as callbacks that stop timers or change repeat
    intervals; clock below [UINT64_MAX].) *)
Theorem uv__timer_close_prevents_firing
    (cb_code : uv_timer_cb -> handle -> M unit) (w : world) (h : handle) (t : uv_timer_t) :
  adds_no_timers cb_code -> wf w -> time (loop w) < UINT64_MAX ->
  mem w !! h = Some t ->
  exists w1 fired w',
    uv__timer_close h w = Ok (tt, w1) /\
    (h ∉ timer_heap (loop w1)) /\
    uv__run_timers cb_code (S (length (due_handles w1))) w1 = Ok (fired, w') /\
    due_handles w' = [] /\
    (h ∉ map fired_handle fired) /\
    (forall x, x ∈ map fired_handle fired -> x ∈ due_handles w).
Proof.
  intros Hcb Hwf Hlt Hm.
  destruct (uv_timer_stop_effect w h t Hwf Hm)
    as (w1 & Hstop & Hwf1 & _ & Hout & _ & Hframe & Htime & _).
  destruct (uv__run_timers_total cb_code Hcb (length (due_handles w1)) w1 Hwf1
              ltac:(lia) ltac:(reflexivity))
    as (fired & w' & Hrun & Hwf' & _ & Hexit & _ & _ & Hfrom & _).
  rewrite Forall_forall in Hfrom.
  assert (Hdue1 : forall x, x ∈ map fired_handle fired -> x ∈ due_handles w1).
  { intros x Hx. apply list_elem_of_fmap in Hx as (e & -> & He). apply (Hfrom e He). }
  exists w1, fired, w'.
  split; [unfold uv__timer_close, bind; rewrite Hstop; reflexivity|].
  split; [exact Hout|]. split; [exact Hrun|].
  split; [apply nothing_due_no_due_handles; assumption|]. split.
  - intros Hin. apply Hdue1, elem_of_due_handles in Hin as [Hin _]. contradiction.
  - intros x Hx. apply Hdue1 in Hx. apply elem_of_due_handles in Hx as (Hin & tx & Hmx & Hdue).
    assert (Hne : x <> h) by (intros ->; contradiction).
    destruct (Hframe x Hne) as [Hmem Hheap].
    apply elem_of_due_handles. split; [apply Hheap, Hin|].
    exists tx. rewrite <- Hmem. split; [exact Hmx | lia].
Qed.

Lemma uv__timer_close_prevents_firing_witness :
  adds_no_timers stop_own_timer /\ wf (three_timers_world 20) /\
  exists w1 fired w',
    uv__timer_close 2 (three_timers_world 20) = Ok (tt, w1) /\
    (2 ∉ timer_heap (loop w1)) /\
    uv__run_timers stop_own_timer (S (length (due_handles w1))) w1 = Ok (fired, w') /\
    due_handles w' = [] /\
    (2 ∉ map fired_handle fired) /\
    (forall x, x ∈ map fired_handle fired -> x ∈ due_handles (three_timers_world 20)).
Proof.
  assert (Hwf : wf (three_timers_world 20))
    by (apply three_timers_world_wf; split; discriminate).
  split; [exact stop_own_timer_adds_no_timers|]. split; [exact Hwf|].
  apply (uv__timer_close_prevents_firing stop_own_timer (three_timers_world 20) 2
           (mk_timer 8 5 3 1 false true) stop_own_timer_adds_no_timers Hwf); reflexivity.
Defined.

(** ** Callbacks that stop their timer *)

Lemma length_due_handles_without (w w3 : world) (h : handle) :
  wf w -> wf w3 -> h ∈ due_handles w ->
  (forall x, x ∈ due_handles w3 <-> x ∈ due_handles w /\ x <> h) ->
  length (due_handles w) = S (length (due_handles w3)).
Proof.
  intros Hwf Hwf3 Hh Hiff.
  change (S (length (due_handles w3))) with (length (h :: due_handles w3)).
  apply Permutation_length, NoDup_Permutation.
  - apply NoDup_due_handles, Hwf.
  - apply NoDup_cons. split; [rewrite Hiff; tauto | apply NoDup_due_handles, Hwf3].
  - intros x. rewrite elem_of_cons, Hiff.
    destruct (decide (x = h)) as [->|Hne]; tauto.
Qed.

(** One turn of the loop when the callback stops its own timer: the due
    minimum leaves the heap, whatever its repeat, and nothing else
    changes. *)
Lemma uv__run_timers_turn_stop_own (w : world) (h : handle) (t : uv_timer_t) :
  wf w -> h ∈ timer_heap (loop w) -> mem w !! h = Some t ->
  exists w3,
    stop_own_timer (timer_cb t) h (rearmed w h t) = Ok (tt, w3) /\
    wf w3 /\ time (loop w3) = time (loop w) /\
    (h ∉ timer_heap (loop w3)) /\
    (exists t3, mem w3 !! h = Some t3 /\ active t3 = false) /\
    (forall x, x <> h ->
       mem w3 !! x = mem w !! x /\
       (x ∈ timer_heap (loop w3) <-> x ∈ timer_heap (loop w))).
Proof.
  intros Hwf Hin Hm.
  destruct (stop_again_rearmed w h t Hwf Hin Hm) as (_ & _ & t' & Hm' & _).
  destruct (uv_timer_stop_effect (rearmed w h t) h t' (rearmed_wf w h t Hwf Hin Hm) Hm')
    as (w3 & Hstop & Hwf3 & _ & Hout & Hm3 & Hframe & Htime & _).
  exists w3. split; [unfold stop_own_timer, bind; rewrite Hstop; reflexivity|].
  split; [exact Hwf3|]. split; [rewrite Htime; apply rearmed_time|].
  split; [exact Hout|]. split; [eauto|].
  intros x Hne. destruct (Hframe x Hne) as [-> ->]. apply (rearmed_other w h x t Hwf Hne).
Qed.

Lemma uv__run_timers_stop_own_total (k : nat) (w : world) :
  wf w -> (length (due_handles w) <= k)%nat ->
  exists fired w',
    uv__run_timers stop_own_timer (S k) w = Ok (fired, w') /\
    wf w' /\ time (loop w') = time (loop w) /\
    StronglySorted fires_no_later fired /\
    NoDup (map fired_handle fired) /\
    length fired = length (due_handles w) /\
    Forall (fun e => fired_handle e ∈ due_handles w /\
                     mem w !! fired_handle e = Some (fired_timer e)) fired /\
    (forall x, x ∈ timer_heap (loop w') <->
               x ∈ timer_heap (loop w) /\ x ∉ due_handles w).
Proof.
  revert w. induction k as [|k IH]; intros w Hwf Hlen.
  all: destruct (heap_min (node_less (mem w)) (timer_heap (loop w))) as [h|] eqn:Hmin.
  all: try (
    apply heap_min_None in Hmin as Hnil;
    exists [], w; rewrite (uv__run_timers_empty _ _ _ Hnil);
    rewrite (due_handles_empty_heap _ Hnil);
    split; [reflexivity|]; split; [exact Hwf|]; split; [reflexivity|];
    split; [constructor|]; split; [constructor|]; split; [reflexivity|];
    split; [constructor|]; intros x; rewrite Hnil; split;
    [intros Hx; inversion Hx | intros [Hx _]; inversion Hx]).
  all: destruct (heap_min_least _ _ _ ltac:(apply Hwf) Hmin) as (Hin & t & Hm & Hleast).
  all: destruct (Z_le_gt_dec (timeout t) (time (loop w))) as [Hdue|Hlater].
  all: try (
    exists [], w; rewrite (uv__run_timers_not_due _ _ _ _ _ Hmin Hm) by lia;
    rewrite (due_handles_min_later _ _ _ Hwf Hmin Hm) by lia;
    split; [reflexivity|]; split; [exact Hwf|]; split; [reflexivity|];
    split; [constructor|]; split; [constructor|]; split; [reflexivity|];
    split; [constructor|]; intros x; split;
    [intros Hx; split; [exact Hx | intros Hn; inversion Hn] | tauto]).
  all: assert (Hhdue : h ∈ due_handles w) by (apply elem_of_due_handles; eauto).
  all: destruct (uv__run_timers_turn_stop_own w h t Hwf Hin Hm)
         as (w3 & Hcall & Hwf3 & Htime3 & Hout3 & _ & Hframe).
  all: assert (Hdue3 : forall x, x ∈ due_handles w3 <-> x ∈ due_handles w /\ x <> h).
  all: try (
    intros x; rewrite !elem_of_due_handles, Htime3;
    destruct (decide (x = h)) as [->|Hne]; [tauto|];
    destruct (Hframe x Hne) as [-> ->]; tauto).
  all: pose proof (length_due_handles_without w w3 h Hwf Hwf3 Hhdue Hdue3) as Hlen3.
  - exfalso. lia.
  - destruct (IH w3 Hwf3 ltac:(lia))
      as (rest & w' & Hrun & Hwf' & Htime' & Hsorted & Hnd & Hlenr & Hfrom & Hheap).
    rewrite Forall_forall in Hfrom.
    assert (Hback : forall e, e ∈ rest ->
              fired_handle e <> h /\ fired_handle e ∈ due_handles w /\
              mem w !! fired_handle e = Some (fired_timer e)).
    { intros e He. destruct (Hfrom e He) as [Hd Hrec]. apply Hdue3 in Hd as [Hd Hne].
      split; [exact Hne|]. split; [exact Hd|].
      destruct (Hframe _ Hne) as [<- _]. exact Hrec. }
    exists (mk_firing h t (timer_cb t) :: rest), w'.
    rewrite (uv__run_timers_due _ _ _ _ _ Hwf Hmin Hm Hdue).
    unfold bind at 1. rewrite Hcall. unfold bind at 1. rewrite Hrun.
    split; [reflexivity|]. split; [exact Hwf'|]. split; [lia|].
    split; [|split; [|split; [|split]]].
    + constructor; [exact Hsorted|]. apply Forall_forall. intros e He.
      destruct (Hback e He) as (_ & Hd & Hrec).
      apply elem_of_due_handles in Hd as [Hine _].
      apply (Hleast _ _ Hine Hrec).
    + cbn [map fired_handle]. apply NoDup_cons. split; [|exact Hnd].
      intros Hh. apply list_elem_of_fmap in Hh as (e & Heq & He).
      destruct (Hback e He) as [Hne _]. congruence.
    + cbn [length]. lia.
    + constructor; [cbn; auto|]. apply Forall_forall. intros e He.
      destruct (Hback e He) as (_ & Hd & Hrec). auto.
    + intros x. rewrite Hheap, Hdue3. destruct (decide (x = h)) as [->|Hne].
      * tauto.
      * destruct (Hframe x Hne) as [_ ->]. tauto.
Qed.

(** X13: when every callback stops the timer it is called for,
    [uv__run_timers] returns at any clock value, [UINT64_MAX] included: the
    timers that were due fire once each, in ascending (deadline, sequence
    number) order, repeating or not, and afterwards the heap holds the
    timers that were not due, none at all when the clock reads
    [UINT64_MAX]. *)
Theorem uv__run_timers_stopping_callbacks_terminate (w : world) :
  wf w ->
  exists fired w',
    uv__run_timers stop_own_timer (S (length (due_handles w))) w = Ok (fired, w') /\
    map fired_handle fired ≡ₚ due_handles w /\
    StronglySorted fires_no_later fired /\
    Forall (fun e => mem w !! fired_handle e = Some (fired_timer e)) fired /\
    (forall x, x ∈ timer_heap (loop w') <->
               x ∈ timer_heap (loop w) /\ x ∉ due_handles w) /\
    (time (loop w) = UINT64_MAX -> timer_heap (loop w') = []).
Proof.
  intros Hwf.
  destruct (uv__run_timers_stop_own_total (length (due_handles w)) w Hwf ltac:(reflexivity))
    as (fired & w' & Hrun & _ & _ & Hsorted & Hnd & Hlen & Hfrom & Hheap).
  exists fired, w'. split; [exact Hrun|]. rewrite Forall_forall in Hfrom. split.
  { apply submseteq_length_Permutation.
    - apply NoDup_submseteq; [exact Hnd|]. intros x Hx.
      apply list_elem_of_fmap in Hx as (e & -> & He). apply (Hfrom e He).
    - rewrite length_map. lia. }
  split; [exact Hsorted|]. split; [apply Forall_forall; intros e He; apply (Hfrom e He)|].
  split; [exact Hheap|].
  intros Hmax. apply elem_of_nil_inv. intros x Hx. apply Hheap in Hx as [Hin Hnot].
  apply Hnot, elem_of_due_handles. split; [exact Hin|].
  destruct (wf_heap_alloc w x Hwf Hin) as (tx & Hmx & _ & _ & _ & Hto & _).
  exists tx. split; [exact Hmx|]. rewrite Hmax. apply Hto.
Qed.

Lemma uv__run_timers_stopping_callbacks_terminate_witness :
  wf (three_timers_world UINT64_MAX) /\
  exists fired w',
    uv__run_timers stop_own_timer (S (length (due_handles (three_timers_world UINT64_MAX))))
                   (three_timers_world UINT64_MAX) = Ok (fired, w') /\
    map fired_handle fired ≡ₚ due_handles (three_timers_world UINT64_MAX) /\
    StronglySorted fires_no_later fired /\
    Forall (fun e => mem (three_timers_world UINT64_MAX) !! fired_handle e =
                     Some (fired_timer e)) fired /\
    (forall x, x ∈ timer_heap (loop w') <->
               x ∈ timer_heap (loop (three_timers_world UINT64_MAX)) /\
               x ∉ due_handles (three_timers_world UINT64_MAX)) /\
    (time (loop (three_timers_world UINT64_MAX)) = UINT64_MAX -> timer_heap (loop w') = []).
Proof.
  assert (Hwf : wf (three_timers_world UINT64_MAX))
    by (apply three_timers_world_wf; split; [discriminate | apply Z.le_refl]).
  split; [exact Hwf|].
  apply (uv__run_timers_stopping_callbacks_terminate (three_timers_world UINT64_MAX) Hwf).
Defined.

Example three_timers_stopped_at_max :
  exists fired w',
    uv__run_timers stop_own_timer 4 (three_timers_world UINT64_MAX) = Ok (fired, w') /\
    map fired_handle fired = [2; 1; 3] /\
    timer_heap (loop w') = [].
Proof. eexists _, _. split; [vm_compute; reflexivity|]. split; reflexivity. Qed.

(** ** One-shot timers at any clock *)

Section one_shots.

Variable cb_code : uv_timer_cb -> handle -> M unit.
Hypothesis Hquiet : quiet cb_code.

Lemma uv__run_timers_one_shots_total (k : nat) (w : world) :
  wf w -> (length (due_handles w) <= k)%nat ->
  (forall x t, x ∈ due_handles w -> mem w !! x = Some t -> repeat t = 0) ->
  exists fired w',
    uv__run_timers cb_code (S k) w = Ok (fired, w') /\
    wf w' /\
    StronglySorted fires_no_later fired /\
    NoDup (map fired_handle fired) /\
    length fired = length (due_handles w) /\
    Forall (fun e => fired_handle e ∈ due_handles w /\
                     mem w !! fired_handle e = Some (fired_timer e)) fired /\
    (forall x, x ∈ timer_heap (loop w') <->
               x ∈ timer_heap (loop w) /\ x ∉ due_handles w).
Proof.
  revert w. induction k as [|k IH]; intros w Hwf Hlen Hone.
  all: destruct (heap_min (node_less (mem w)) (timer_heap (loop w))) as [h|] eqn:Hmin.
  all: try (
    apply heap_min_None in Hmin as Hnil;
    exists [], w; rewrite (uv__run_timers_empty _ _ _ Hnil);
    rewrite (due_handles_empty_heap _ Hnil);
    split; [reflexivity|]; split; [exact Hwf|];
    split; [constructor|]; split; [constructor|]; split; [reflexivity|];
    split; [constructor|]; intros x; rewrite Hnil; split;
    [intros Hx; inversion Hx | intros [Hx _]; inversion Hx]).
  all: destruct (heap_min_least _ _ _ ltac:(apply Hwf) Hmin) as (Hin & t & Hm & Hleast).
  all: destruct (Z_le_gt_dec (timeout t) (time (loop w))) as [Hdue|Hlater].
  all: try (
    exists [], w; rewrite (uv__run_timers_not_due _ _ _ _ _ Hmin Hm) by lia;
    rewrite (due_handles_min_later _ _ _ Hwf Hmin Hm) by lia;
    split; [reflexivity|]; split; [exact Hwf|];
    split; [constructor|]; split; [constructor|]; split; [reflexivity|];
    split; [constructor|]; intros x; split;
    [intros Hx; split; [exact Hx | intros Hn; inversion Hn] | tauto]).
  all: assert (Hhdue : h ∈ due_handles w) by (apply elem_of_due_handles; eauto).
  all: pose proof (Hone h t Hhdue Hm) as Hr.
  all: pose proof (rearmed_wf w h t Hwf Hin Hm) as Hwf2.
  all: destruct (rearmed_one_shot w h t Hwf Hr) as [Hout2 _].
  all: assert (Hdue2 : forall x, x ∈ due_handles (rearmed w h t) <->
                                 x ∈ due_handles w /\ x <> h).
  all: try (
    intros x; rewrite !elem_of_due_handles, rearmed_time;
    destruct (decide (x = h)) as [->|Hne]; [tauto|];
    destruct (rearmed_other w h x t Hwf Hne) as [-> ->]; tauto).
  all: pose proof (length_due_handles_without w _ h Hwf Hwf2 Hhdue Hdue2) as Hlen2.
  - exfalso. lia.
  - destruct (IH (rearmed w h t) Hwf2 ltac:(lia))
      as (rest & w' & Hrun & Hwf' & Hsorted & Hnd & Hlenr & Hfrom & Hheap).
    { intros x tx Hx Hmx. apply Hdue2 in Hx as [Hx Hne].
      destruct (rearmed_other w h x t Hwf Hne) as [Heq _]. rewrite Heq in Hmx.
      apply (Hone x tx Hx Hmx). }
    rewrite Forall_forall in Hfrom.
    assert (Hback : forall e, e ∈ rest ->
              fired_handle e <> h /\ fired_handle e ∈ due_handles w /\
              mem w !! fired_handle e = Some (fired_timer e)).
    { intros e He. destruct (Hfrom e He) as [Hd Hrec]. apply Hdue2 in Hd as [Hd Hne].
      split; [exact Hne|]. split; [exact Hd|].
      destruct (rearmed_other w h (fired_handle e) t Hwf Hne) as [<- _]. exact Hrec. }
    exists (mk_firing h t (timer_cb t) :: rest), w'.
    rewrite (uv__run_timers_due _ _ _ _ _ Hwf Hmin Hm Hdue).
    unfold bind at 1. rewrite Hquiet. unfold bind at 1. rewrite Hrun.
    split; [reflexivity|]. split; [exact Hwf'|].
    split; [|split; [|split; [|split]]].
    + constructor; [exact Hsorted|]. apply Forall_forall. intros e He.
      destruct (Hback e He) as (_ & Hd & Hrec).
      apply elem_of_due_handles in Hd as [Hine _].
      apply (Hleast _ _ Hine Hrec).
    + cbn [map fired_handle]. apply NoDup_cons. split; [|exact Hnd].
      intros Hh. apply list_elem_of_fmap in Hh as (e & Heq & He).
      destruct (Hback e He) as [Hne _]. congruence.
    + cbn [length]. lia.
    + constructor; [cbn; auto|]. apply Forall_forall. intros e He.
      destruct (Hback e He) as (_ & Hd & Hrec). auto.
    + intros x. rewrite Hheap, Hdue2. destruct (decide (x = h)) as [->|Hne].
      * tauto.
      * destruct (rearmed_other w h x t Hwf Hne) as [_ ->]. tauto.
Qed.

End one_shots.

(** X14: one-shot timers fire at any clock value.  With callbacks that leave
    the timers alone, if every due timer is one-shot then [uv__run_timers]
    returns, also with the clock at [UINT64_MAX]: the due timers fire once
    each in ascending (deadline, sequence number) order and leave the heap,
    which keeps the timers that were not due, none at all at
    [UINT64_MAX]. *)
Theorem uv__run_timers_one_shots_terminate
    (cb_code : uv_timer_cb -> handle -> M unit) (w : world) :
  quiet cb_code -> wf w ->
  (forall x t, x ∈ due_handles w -> mem w !! x = Some t -> repeat t = 0) ->
  exists fired w',
    uv__run_timers cb_code (S (length (due_handles w))) w = Ok (fired, w') /\
    map fired_handle fired ≡ₚ due_handles w /\
    StronglySorted fires_no_later fired /\
    (forall x, x ∈ timer_heap (loop w') <->
               x ∈ timer_heap (loop w) /\ x ∉ due_handles w) /\
    (time (loop w) = UINT64_MAX -> timer_heap (loop w') = []).
Proof.
  intros Hq Hwf Hone.
  destruct (uv__run_timers_one_shots_total cb_code Hq (length (due_handles w)) w Hwf
              ltac:(reflexivity) Hone)
    as (fired & w' & Hrun & _ & Hsorted & Hnd & Hlen & Hfrom & Hheap).
  exists fired, w'. split; [exact Hrun|]. rewrite Forall_forall in Hfrom. split.
  { apply submseteq_length_Permutation.
    - apply NoDup_submseteq; [exact Hnd|]. intros x Hx.
      apply list_elem_of_fmap in Hx as (e & -> & He). apply (Hfrom e He).
    - rewrite length_map. lia. }
  split; [exact Hsorted|]. split; [exact Hheap|].
  intros Hmax. apply elem_of_nil_inv. intros x Hx. apply Hheap in Hx as [Hin Hnot].
  apply Hnot, elem_of_due_handles. split; [exact Hin|].
  destruct (wf_heap_alloc w x Hwf Hin) as (tx & Hmx & _ & _ & _ & Hto & _).
  exists tx. split; [exact Hmx|]. rewrite Hmax. apply Hto.
Qed.

Lemma two_one_shots_world_wf (now : Z) : u64 now -> wf (two_one_shots_world now).
Proof.
  intros Hnow.
  assert (Hwf : wf (two_one_shots_world 0))
    by (apply (bool_decide_unpack _); vm_compute; reflexivity).
  destruct Hwf as (_ & Hrest). split; [exact Hnow | exact Hrest].
Qed.

Lemma uv__run_timers_one_shots_terminate_witness :
  quiet quiet_code /\ wf (two_one_shots_world UINT64_MAX) /\
  exists fired w',
    uv__run_timers quiet_code (S (length (due_handles (two_one_shots_world UINT64_MAX))))
                   (two_one_shots_world UINT64_MAX) = Ok (fired, w') /\
    map fired_handle fired ≡ₚ due_handles (two_one_shots_world UINT64_MAX) /\
    StronglySorted fires_no_later fired /\
    (forall x, x ∈ timer_heap (loop w') <->
               x ∈ timer_heap (loop (two_one_shots_world UINT64_MAX)) /\
               x ∉ due_handles (two_one_shots_world UINT64_MAX)) /\
    (time (loop (two_one_shots_world UINT64_MAX)) = UINT64_MAX ->
     timer_heap (loop w') = []).
Proof.
  assert (Hwf : wf (two_one_shots_world UINT64_MAX))
    by (apply two_one_shots_world_wf; split; [discriminate | apply Z.le_refl]).
  split; [exact quiet_code_quiet|]. split; [exact Hwf|].
  apply (uv__run_timers_one_shots_terminate quiet_code (two_one_shots_world UINT64_MAX)
           quiet_code_quiet Hwf).
  intros x t Hx Hm. apply elem_of_due_handles in Hx as [Hin _].
  cbn in Hin. apply elem_of_cons in Hin as [->|Hin].
  - injection Hm as <-. reflexivity.
  - apply elem_of_cons in Hin as [->|Hin]; [|inversion Hin].
    injection Hm as <-. reflexivity.
Defined.

(** ** Re-arming a running timer *)

(** X15: [uv_timer_again] on a running timer.  A repeating timer is
    rescheduled from now: whatever deadline was pending, it is due at
    [time + repeat], saturated, with a new sequence number, still once in the
    heap, and the other handles are as before.  A one-shot timer makes
    [uv_timer_again] fail with [UV_EINVAL] and keeps running with its
    deadline. *)
Theorem uv_timer_again_reschedules (w : world) (h : handle) (t : uv_timer_t) :
  wf w -> mem w !! h = Some t -> active t = true ->
  (repeat t = 0 -> uv_timer_again h w = Ok (UV_EINVAL, w)) /\
  (repeat t <> 0 ->
   exists w' rest,
     uv_timer_again h w = Ok (0, w') /\
     mem w' !! h =
       Some (mk_timer (timer_cb t) (Z.min (time (loop w) + repeat t) UINT64_MAX)
                      (repeat t) (timer_counter (loop w)) false true) /\
     timer_heap (loop w') = h :: rest /\ (h ∉ rest) /\
     (forall x, x <> h ->
        mem w' !! x = mem w !! x /\
        (x ∈ timer_heap (loop w') <-> x ∈ timer_heap (loop w)))).
Proof.
  intros Hwf Hm Ha.
  destruct (wf_timer w h t Hwf Hm) as (_ & Hrp & _ & Hact & Hclcb).
  destruct (Hclcb Ha) as [Hcl Hcb].
  assert (Hnd : NoDup (timer_heap (loop w))) by apply Hwf.
  split.
  - intros Hr. apply (uv_timer_again_einval _ _ _ Hm). right. exact Hr.
  - intros Hr. exists (started w h t (timer_cb t) (repeat t) (repeat t)),
                      (remove_first h (timer_heap (loop w))).
    split.
    { rewrite (uv_timer_again_calls_start _ _ _ Hm Hcb Hr). unfold bind.
      rewrite (uv_timer_start_ok _ _ _ _ _ _ Hm Hcl Hcb); [reflexivity | apply Hact]. }
    cbn. rewrite Ha, Hcl. split.
    { rewrite lookup_insert_eq.
      rewrite (clamped_timeout_saturates (time (loop w)) _ ltac:(apply Hwf) Hrp).
      reflexivity. }
    split; [reflexivity|]. split.
    { rewrite (elem_of_remove_first h h _ Hnd). tauto. }
    intros x Hne. rewrite lookup_insert_ne by auto. split; [reflexivity|].
    rewrite elem_of_cons, (elem_of_remove_first h x _ Hnd). tauto.
Qed.

Lemma uv_timer_again_reschedules_witness :
  wf (three_timers_world 2) /\
  (repeat (mk_timer 8 5 3 1 false true) = 0 ->
   uv_timer_again 2 (three_timers_world 2) = Ok (UV_EINVAL, three_timers_world 2)) /\
  (repeat (mk_timer 8 5 3 1 false true) <> 0 ->
   exists w' rest,
     uv_timer_again 2 (three_timers_world 2) = Ok (0, w') /\
     mem w' !! 2 =
       Some (mk_timer (timer_cb (mk_timer 8 5 3 1 false true))
                      (Z.min (time (loop (three_timers_world 2)) +
                              repeat (mk_timer 8 5 3 1 false true)) UINT64_MAX)
                      (repeat (mk_timer 8 5 3 1 false true))
                      (timer_counter (loop (three_timers_world 2))) false true) /\
     timer_heap (loop w') = 2 :: rest /\ (2 ∉ rest) /\
     (forall x, x <> 2 ->
        mem w' !! x = mem (three_timers_world 2) !! x /\
        (x ∈ timer_heap (loop w') <-> x ∈ timer_heap (loop (three_timers_world 2))))).
Proof.
  assert (Hwf : wf (three_timers_world 2))
    by (apply three_timers_world_wf; split; discriminate).
  split; [exact Hwf|].
  apply (uv_timer_again_reschedules (three_timers_world 2) 2 (mk_timer 8 5 3 1 false true) Hwf);
    reflexivity.
Defined.
